(** * CustomScroll: momentum scrolling with rubber band and spring return

    A shallow embedding of [script.js] (class [CustomScroll]) and the proofs
    of its specification.

    JavaScript numbers are IEEE 754 binary64 values, so every numeric field
    is a primitive [float] and every arithmetic operator is the binary64
    one: the model computes, bit for bit, what the script computes, NaN,
    infinities and signed zeros included.  The order facts the proofs need
    are derived from the specification of the primitives ([SpecFloat]). *)

From Stdlib Require Import ZArith Floats Bool List Lia.
Import ListNotations.

(* The decimal literals of the script (0.95, 0.15, 0.4, ...) are read as the
   nearest binary64 value, as JavaScript reads them. *)
Set Warnings "-inexact-float".

Local Open Scope float_scope.

(** [a > b] on JavaScript numbers is [b < a]. *)
Notation "x >? y" := (PrimFloat.ltb y x)
  (at level 70, no associativity, only parsing) : float_scope.

(** ** The [Math] functions the script calls *)

Module Math.

Definition abs (x : float) : float := PrimFloat.abs x.

(** [Math.max]: NaN when an argument is NaN; of two equal arguments only
    the zeros can differ, and [+0] counts as the larger. *)
Definition max (a b : float) : float :=
  if is_nan a || is_nan b then nan
  else if a <? b then b
  else if b <? a then a
  else if is_zero a then (if get_sign a then b else a)
  else a.

(** [Math.min]: NaN when an argument is NaN; [-0] counts as the smaller
    zero. *)
Definition min (a b : float) : float :=
  if is_nan a || is_nan b then nan
  else if a <? b then a
  else if b <? a then b
  else if is_zero a then (if get_sign a then a else b)
  else a.

End Math.

(** ** Data model *)

(** The string tags of [this.state]. *)
Inductive scroll_state : Type := Drag | Decel | Spring | Idle.

Definition scroll_state_eqb (a b : scroll_state) : bool :=
  match a, b with
  | Drag, Drag | Decel, Decel | Spring, Spring | Idle, Idle => true
  | _, _ => false
  end.

(** One entry [{dy, dt}] of [this.moveHistory]. *)
Record move : Type := Move { dy : float; dt : float }.

(** The fields of a [CustomScroll] instance.  The three DOM elements are
    represented by what the script reads from and writes to them:
    [clientHeight] and [scrollHeight] (read once, in [vh] and [ch]), the
    captured pointer (it is [pointerId] whenever that is not [null]) and the
    presence of the CSS class "active". *)
Record CustomScroll : Type := {
  vh : float;
  ch : float;
  min : float;
  max : float;
  pos : float;
  vel : float;
  springTarget : float;
  state : scroll_state;
  pointerId : option Z;
  lastY : float;
  lastMoveTime : float;
  moveHistory : list move;
  active : bool
}.

(** The behaviour constants, assigned once in the constructor and never
    written again. *)
Definition FRICTION : float := 0.95.
Definition SPRING_K : float := 0.15.
Definition STOP_VEL : float := 5.
Definition MAX_VEL : float := 2000.

(** Field assignments [this.f = v]. *)
Definition set_pos (v : float) (s : CustomScroll) : CustomScroll :=
  {| vh := vh s; ch := ch s; min := min s; max := max s; pos := v; vel := vel s;
     springTarget := springTarget s; state := state s; pointerId := pointerId s;
     lastY := lastY s; lastMoveTime := lastMoveTime s;
     moveHistory := moveHistory s; active := active s |}.

Definition set_vel (v : float) (s : CustomScroll) : CustomScroll :=
  {| vh := vh s; ch := ch s; min := min s; max := max s; pos := pos s; vel := v;
     springTarget := springTarget s; state := state s; pointerId := pointerId s;
     lastY := lastY s; lastMoveTime := lastMoveTime s;
     moveHistory := moveHistory s; active := active s |}.

Definition set_springTarget (v : float) (s : CustomScroll) : CustomScroll :=
  {| vh := vh s; ch := ch s; min := min s; max := max s; pos := pos s; vel := vel s;
     springTarget := v; state := state s; pointerId := pointerId s;
     lastY := lastY s; lastMoveTime := lastMoveTime s;
     moveHistory := moveHistory s; active := active s |}.

Definition set_state (v : scroll_state) (s : CustomScroll) : CustomScroll :=
  {| vh := vh s; ch := ch s; min := min s; max := max s; pos := pos s; vel := vel s;
     springTarget := springTarget s; state := v; pointerId := pointerId s;
     lastY := lastY s; lastMoveTime := lastMoveTime s;
     moveHistory := moveHistory s; active := active s |}.

Definition set_pointerId (v : option Z) (s : CustomScroll) : CustomScroll :=
  {| vh := vh s; ch := ch s; min := min s; max := max s; pos := pos s; vel := vel s;
     springTarget := springTarget s; state := state s; pointerId := v;
     lastY := lastY s; lastMoveTime := lastMoveTime s;
     moveHistory := moveHistory s; active := active s |}.

Definition set_lastY (v : float) (s : CustomScroll) : CustomScroll :=
  {| vh := vh s; ch := ch s; min := min s; max := max s; pos := pos s; vel := vel s;
     springTarget := springTarget s; state := state s; pointerId := pointerId s;
     lastY := v; lastMoveTime := lastMoveTime s;
     moveHistory := moveHistory s; active := active s |}.

Definition set_lastMoveTime (v : float) (s : CustomScroll) : CustomScroll :=
  {| vh := vh s; ch := ch s; min := min s; max := max s; pos := pos s; vel := vel s;
     springTarget := springTarget s; state := state s; pointerId := pointerId s;
     lastY := lastY s; lastMoveTime := v;
     moveHistory := moveHistory s; active := active s |}.

Definition set_moveHistory (v : list move) (s : CustomScroll) : CustomScroll :=
  {| vh := vh s; ch := ch s; min := min s; max := max s; pos := pos s; vel := vel s;
     springTarget := springTarget s; state := state s; pointerId := pointerId s;
     lastY := lastY s; lastMoveTime := lastMoveTime s;
     moveHistory := v; active := active s |}.

Definition set_active (v : bool) (s : CustomScroll) : CustomScroll :=
  {| vh := vh s; ch := ch s; min := min s; max := max s; pos := pos s; vel := vel s;
     springTarget := springTarget s; state := state s; pointerId := pointerId s;
     lastY := lastY s; lastMoveTime := lastMoveTime s;
     moveHistory := moveHistory s; active := v |}.

(** The test [this.pos < this.min || this.pos > this.max], written three
    times in the script. *)
Definition out_of_bounds (s : CustomScroll) : bool :=
  (pos s <? min s) || (pos s >? max s).

(** The bound assigned to [springTarget] at the two places that enter
    [Spring]: [this.pos < this.min ? this.min : this.max]. *)
Definition violated_bound (s : CustomScroll) : float :=
  if pos s <? min s then min s else max s.

(** ** Constructor *)

(** The field initialisers of [new CustomScroll(viewport, content, thumb)],
    given [viewport.clientHeight] and [content.scrollHeight]. *)
Definition fields (clientHeight scrollHeight : float) : CustomScroll :=
  {| vh := clientHeight;
     ch := scrollHeight;
     min := 0;
     max := Math.max (scrollHeight - clientHeight) 0;
     pos := 0;
     vel := 0;
     springTarget := 0;
     state := Idle;
     pointerId := None;
     lastY := 0;
     lastMoveTime := 0;
     moveHistory := [];
     active := false |}.

(** ** Velocity estimate *)

(** The [for ... of] loop of [estimateVelocity]: both totals accumulated in
    one pass, starting from [0]. *)
Definition totals (h : list move) : float * float :=
  fold_left (fun acc m => (fst acc + dy m, snd acc + dt m)) h (0, 0).

Definition estimateVelocity (s : CustomScroll) : float :=
  let totalDy := fst (totals (moveHistory s)) in
  let totalDt := snd (totals (moveHistory s)) in
  if totalDt >? 0 then (totalDy / totalDt) * 1000 else 0.

(** ** Pointer listeners of [bindEvents] *)

(** "pointerdown": [clientY] is [e.clientY], [now] the value of
    [performance.now()]. *)
Definition on_pointerdown (id : Z) (clientY now : float) (s : CustomScroll)
  : CustomScroll :=
  let s := set_pointerId (Some id) s in
  let s := set_state Drag s in
  let s := set_vel 0 s in
  let s := set_lastY clientY s in
  let s := set_lastMoveTime now s in
  let s := set_moveHistory [] s in
  set_active true s.

(** [push] followed by [if (length > 5) shift()]. *)
Definition push_capped (m : move) (h : list move) : list move :=
  let h := h ++ [m] in
  if Nat.ltb 5 (length h) then tl h else h.

(** "pointermove". *)
Definition on_pointermove (clientY now : float) (s : CustomScroll)
  : CustomScroll :=
  if negb (scroll_state_eqb (state s) Drag) then s
  else
    let dy := clientY - lastY s in
    let s := set_lastY clientY s in
    let s := if out_of_bounds s
             then set_pos (pos s + dy * 0.4) s
             else set_pos (pos s + dy) s in
    let s := set_moveHistory
               (push_capped (Move dy (now - lastMoveTime s)) (moveHistory s)) s in
    set_lastMoveTime now s.

(** "pointerup". *)
Definition on_pointerup (s : CustomScroll) : CustomScroll :=
  let s := match pointerId s with
           | Some _ => set_pointerId None s
           | None => s
           end in
  let s := set_active false s in
  let velocity := estimateVelocity s in
  if out_of_bounds s then
    let s := set_springTarget (violated_bound s) s in
    set_state Spring s
  else if Math.abs velocity >? STOP_VEL then
    let s := set_vel (Math.max (Math.min velocity MAX_VEL) (- MAX_VEL)) s in
    set_state Decel s
  else
    set_state Idle s.

(** ** The frame callback *)

(** The state update of [animate].  The callback starts by requesting the
    next frame (the [frame] events of the dispatch below) and ends by writing
    the rounded position to the content's transform and by calling
    [updateThumb]; both only read the state. *)
Definition animate (s : CustomScroll) : CustomScroll :=
  match state s with
  | Decel =>
      let s := set_pos (pos s + vel s * (1 / 60)) s in
      let s := set_vel (vel s * FRICTION) s in
      let s := if Math.abs (vel s) <? STOP_VEL then set_state Idle s else s in
      if out_of_bounds s then
        let s := set_springTarget (violated_bound s) s in
        set_state Spring s
      else s
  | Spring =>
      let delta := springTarget s - pos s in
      let s := set_vel (delta * SPRING_K) s in
      let s := set_pos (pos s + vel s) s in
      if Math.abs delta <? 0.5 then
        let s := set_pos (springTarget s) s in
        set_state Idle s
      else s
  | Drag | Idle => s
  end.

(** The constructor ends with [this.bindEvents()], which registers the
    listeners (the event dispatch below), and with a first [this.animate()]. *)
Definition constructor (clientHeight scrollHeight : float) : CustomScroll :=
  animate (fields clientHeight scrollHeight).

(** ** The scrollbar thumb *)

(** The locals of [updateThumb]. *)
Definition ratio (s : CustomScroll) : float := vh s / ch s.
Definition thumbHeight (s : CustomScroll) : float := Math.max (vh s * ratio s) 20.
Definition maxThumbY (s : CustomScroll) : float := vh s - thumbHeight s.
Definition scrollRatio (s : CustomScroll) : float :=
  if max s >? 0 then pos s / max s else 0.

(** What [updateThumb] writes to the thumb's style: the number of the
    [height] and the number of the [translateY]. *)
Record thumb_style : Type := { height : float; translateY : float }.

Definition updateThumb (s : CustomScroll) : thumb_style :=
  {| height := thumbHeight s; translateY := maxThumbY s * scrollRatio s |}.

(** ** Event dispatch *)

(** What the host delivers to an instance: the pointer events on the
    viewport and the animation frames.  The script registers listeners for
    "pointerdown", "pointermove" and "pointerup" only. *)
Inductive event : Type :=
| pointerdown (id : Z) (clientY now : float)
| pointermove (clientY now : float)
| pointerup
| pointercancel
| frame.

Definition dispatch (s : CustomScroll) (e : event) : CustomScroll :=
  match e with
  | pointerdown id y now => on_pointerdown id y now s
  | pointermove y now => on_pointermove y now s
  | pointerup => on_pointerup s
  | pointercancel => s
  | frame => animate s
  end.

(** The instance after a sequence of events. *)
Definition run (es : list event) (s : CustomScroll) : CustomScroll :=
  fold_left dispatch es s.

(** [n] consecutive animation frames. *)
Definition ticks (n : nat) (s : CustomScroll) : CustomScroll :=
  run (repeat frame n) s.

(** ** Notions of the specification *)

(** [clamp(v, lo, hi)] as the specification words it: [lo] below the range,
    [hi] above it, [v] itself inside.  To be compared with the script's
    [Math.max(Math.min(v, hi), lo)]. *)
Definition clamp (v lo hi : float) : float :=
  if v <? lo then lo else if v >? hi then hi else v.

(** The specification's sums of all displacements and of all elapsed times
    of a history, each on its own.  To be compared with the single pass of
    [totals]. *)
Definition sum (l : list float) : float := fold_left PrimFloat.add l 0.
Definition sum_displacement (h : list move) : float := sum (map dy h).
Definition sum_elapsedTime (h : list move) : float := sum (map dt h).

(** [position] lies within [[minBound, maxBound]]. *)
Definition within_bounds (s : CustomScroll) : bool :=
  (min s <=? pos s) && (pos s <=? max s).

(** A drag: the moves of one pointer session, each given by its [clientY]
    and the time it is handled at. *)
Definition drag (ms : list (float * float)) (s : CustomScroll) : CustomScroll :=
  run (map (fun m => pointermove (fst m) (snd m)) ms) s.

(** Every move of the drag starts from a position that is not out of
    bounds. *)
Fixpoint moves_in_bounds (ms : list (float * float)) (s : CustomScroll) : bool :=
  match ms with
  | [] => true
  | m :: ms' =>
      negb (out_of_bounds s)
      && moves_in_bounds ms' (on_pointermove (fst m) (snd m) s)
  end.

(** The raw displacements of a drag: each [clientY] minus the one before,
    the first minus the reference [y0]. *)
Fixpoint displacements (y0 : float) (ys : list float) : list float :=
  match ys with
  | [] => []
  | y :: ys' => (y - y0) :: displacements y ys'
  end.

(** What every state of an instance built from [clientHeight] and
    [scrollHeight] satisfies: the geometry and the bounds are those of the
    constructor, [springTarget] is one of the two bounds, [Idle] and [Decel]
    are held in bounds only, and the velocity is [0] throughout a drag. *)
Definition invariant (clientHeight scrollHeight : float) (s : CustomScroll) : Prop :=
  vh s = clientHeight /\ ch s = scrollHeight /\
  min s = 0 /\ max s = Math.max (scrollHeight - clientHeight) 0 /\
  (springTarget s = min s \/ springTarget s = max s) /\
  (state s = Idle \/ state s = Decel -> out_of_bounds s = false) /\
  (state s = Drag -> vel s = 0).

(** ** Instances used as examples *)

(** The instance of the specification's spring example: content shorter
    than the viewport ([max = 0]), dragged down by [10] and released; it is
    then in [Spring] at position [10] with [springTarget = 0]. *)
Definition spring_example : CustomScroll :=
  run [pointerdown 1 0 0; pointermove 10 16; pointerup] (constructor 500 300).

(** The history of the specification's example: one entry, displacement
    [10] in [16.7] milliseconds. *)
Definition one_move_history : list move := [Move 10 16.7].

(** A drag of one move, in progress: the instance on which a cancelled
    session is observed. *)
Definition dragging_example : CustomScroll :=
  run [pointerdown 1 100 0; pointermove 130 10] (constructor 500 1500).

(** A slow drag released and coasted to rest (14 frames): an [Idle]
    instance whose [moveHistory] still holds the move of that drag. *)
Definition rested_example : CustomScroll :=
  run ([pointerdown 1 100 0; pointermove 101 100; pointerup] ++ repeat frame 14)
      (constructor 500 1500).

(** The same release, three frames into its coast. *)
Definition coasting_example : CustomScroll :=
  run ([pointerdown 1 100 0; pointermove 101 100; pointerup] ++ repeat frame 3)
      (constructor 500 1500).

(** ** Notions for the pointer session *)

(** The last [n] elements of a list. *)
Definition lastn {A : Type} (n : nat) (l : list A) : list A :=
  skipn (length l - n) l.

(** The entries the moves of a drag produce, from the reference coordinate
    [y0] and the reference time [t0]: each move's displacement and the time
    elapsed since the move before. *)
Fixpoint entries (y0 t0 : float) (ms : list (float * float)) : list move :=
  match ms with
  | [] => []
  | m :: ms' => Move (fst m - y0) (snd m - t0) :: entries (fst m) (snd m) ms'
  end.

Definition is_pointerdown (e : event) : bool :=
  match e with pointerdown _ _ _ => true | _ => false end.

Definition is_pointermove (e : event) : bool :=
  match e with pointermove _ _ => true | _ => false end.

(** The bookkeeping of the pointer session: a pointer is captured, and the
    CSS class "active" is set, exactly in [Drag]; the history holds at most
    five entries. *)
Definition session_invariant (s : CustomScroll) : Prop :=
  (state s = Drag <-> pointerId s <> None) /\
  (state s = Drag <-> active s = true) /\
  (length (moveHistory s) <= 5)%nat.

(** Lexicographic order on (exponent, mantissa): the order of two finite
    binary64 numbers of one sign. *)
Definition lex_lt (e1 : Z) (m1 : positive) (e2 : Z) (m2 : positive) : Prop :=
  (e1 < e2)%Z \/ (e1 = e2 /\ (m1 < m2)%positive).

(** * Order facts on binary64 numbers *)

Section FloatOrder.

(** Swapping the arguments of a comparison mirrors its result. *)
Lemma SFcompare_swap (x y : spec_float) :
  SFcompare y x = option_map CompOpp (SFcompare x y).
Proof.
  destruct x as [sx| sx | |sx mx ex], y as [sy|sy| |sy my ey]; simpl;
    try reflexivity;
    try (destruct sx; reflexivity);
    try (destruct sy; reflexivity);
    try (destruct sx, sy; reflexivity).
  assert (Hm : Pos.compare_cont Eq my mx = CompOpp (Pos.compare_cont Eq mx my))
    by exact (Pos.compare_antisym mx my).
  destruct sx, sy; simpl; try reflexivity;
    rewrite (Z.compare_antisym ex ey);
    destruct (ex ?= ey)%Z; simpl; try reflexivity;
    rewrite Hm; try rewrite CompOpp_involutive; reflexivity.
Qed.

Lemma SFcompare_refl (x : spec_float) :
  x <> S754_nan -> SFcompare x x = Some Eq.
Proof.
  destruct x as [sx|sx| |sx mx ex]; simpl; intros H;
    try reflexivity; try congruence.
  - destruct sx; reflexivity.
  - destruct sx; rewrite Z.compare_refl, Pos.compare_cont_refl; reflexivity.
Qed.

Lemma SFcompare_nan_l (y : spec_float) : SFcompare S754_nan y = None.
Proof. reflexivity. Qed.

Lemma SFcompare_nan_r (x : spec_float) : SFcompare x S754_nan = None.
Proof. destruct x; reflexivity. Qed.

Lemma SFcompare_some (x y : spec_float) :
  x <> S754_nan -> y <> S754_nan -> exists c, SFcompare x y = Some c.
Proof.
  destruct x, y; simpl; intros Hx Hy; try congruence; eauto.
Qed.

Lemma is_nan_Prim2SF (x : float) :
  is_nan x = false <-> Prim2SF x <> S754_nan.
Proof.
  unfold is_nan. rewrite FloatAxioms.eqb_spec. unfold SFeqb. split.
  - intros H E. rewrite E in H. discriminate H.
  - intros H. rewrite (SFcompare_refl _ H). reflexivity.
Qed.

Lemma ltb_irrefl (x : float) : (x <? x) = false.
Proof.
  rewrite ltb_spec. unfold SFltb.
  destruct (Prim2SF x) as [sx|sx| |sx mx ex] eqn:E; simpl; try reflexivity.
  - destruct sx; reflexivity.
  - destruct sx; rewrite Z.compare_refl, Pos.compare_cont_refl; reflexivity.
Qed.

Lemma ltb_asym (x y : float) : (x <? y) = true -> (y <? x) = false.
Proof.
  rewrite !ltb_spec. unfold SFltb.
  rewrite (SFcompare_swap (Prim2SF x) (Prim2SF y)).
  destruct (SFcompare (Prim2SF x) (Prim2SF y)) as [[ | | ]|]; simpl;
    intros H; congruence.
Qed.

Lemma ltb_not_nan (x y : float) :
  (x <? y) = true -> is_nan x = false /\ is_nan y = false.
Proof.
  rewrite ltb_spec, !is_nan_Prim2SF. unfold SFltb. intros H.
  split; intros E; rewrite E in H.
  - rewrite SFcompare_nan_l in H. discriminate H.
  - rewrite SFcompare_nan_r in H. discriminate H.
Qed.

Lemma eqb_not_ltb (x y : float) :
  (x =? y) = true -> (x <? y) = false /\ (y <? x) = false.
Proof.
  rewrite FloatAxioms.eqb_spec, !ltb_spec. unfold SFeqb, SFltb.
  rewrite (SFcompare_swap (Prim2SF x) (Prim2SF y)).
  destruct (SFcompare (Prim2SF x) (Prim2SF y)) as [[ | | ]|]; simpl;
    intros H; try discriminate H; split; reflexivity.
Qed.

(** Two numbers, neither NaN, are ordered one way or the other. *)
Lemma ltb_false_leb (x y : float) :
  is_nan x = false -> is_nan y = false ->
  (x <? y) = false -> (y <=? x) = true.
Proof.
  rewrite ltb_spec, leb_spec, !is_nan_Prim2SF. unfold SFltb, SFleb.
  intros Hx Hy. rewrite (SFcompare_swap (Prim2SF x) (Prim2SF y)).
  destruct (SFcompare_some _ _ Hx Hy) as [c ->].
  destruct c; simpl; intros H; congruence.
Qed.

Lemma trichotomy (x y : float) :
  is_nan x = false -> is_nan y = false ->
  (x <? y) = false -> (x =? y) = false -> (y <? x) = true.
Proof.
  rewrite FloatAxioms.eqb_spec, !ltb_spec, !is_nan_Prim2SF. unfold SFltb, SFeqb.
  intros Hx Hy. rewrite (SFcompare_swap (Prim2SF x) (Prim2SF y)).
  destruct (SFcompare_some _ _ Hx Hy) as [c ->].
  destruct c; simpl; intros H1 H2; congruence.
Qed.

Lemma lex_lt_trans e1 m1 e2 m2 e3 m3 :
  lex_lt e1 m1 e2 m2 -> lex_lt e2 m2 e3 m3 -> lex_lt e1 m1 e3 m3.
Proof. unfold lex_lt. lia. Qed.

Lemma compare_pos_lt e1 m1 e2 m2 :
  match (e1 ?= e2)%Z with
  | Lt => Lt | Gt => Gt | Eq => Pos.compare_cont Eq m1 m2
  end = Lt <-> lex_lt e1 m1 e2 m2.
Proof.
  unfold lex_lt. change (Pos.compare_cont Eq m1 m2) with (m1 ?= m2)%positive.
  destruct (Z.compare_spec e1 e2) as [E|E|E].
  - rewrite Pos.compare_lt_iff. lia.
  - split; [intros _; lia | reflexivity].
  - split; [discriminate | lia].
Qed.

Lemma compare_neg_lt e1 m1 e2 m2 :
  match (e1 ?= e2)%Z with
  | Lt => Gt | Gt => Lt | Eq => CompOpp (Pos.compare_cont Eq m1 m2)
  end = Lt <-> lex_lt e2 m2 e1 m1.
Proof.
  unfold lex_lt. change (Pos.compare_cont Eq m1 m2) with (m1 ?= m2)%positive.
  destruct (Z.compare_spec e1 e2) as [E|E|E].
  - rewrite <- Pos.compare_antisym, Pos.compare_lt_iff. lia.
  - split; [discriminate | lia].
  - split; [intros _; lia | reflexivity].
Qed.

Lemma SFltb_trans (x y z : spec_float) :
  SFltb x y = true -> SFltb y z = true -> SFltb x z = true.
Proof.
  assert (L : forall c, match c with Lt => true | _ => false end = true <-> c = Lt)
    by (intros [ | | ]; split; congruence).
  unfold SFltb.
  destruct x as [sx|sx| |sx mx ex], y as [sy|sy| |sy my ey],
           z as [sz|sz| |sz mz ez]; simpl;
    try discriminate; try (destruct sx, sy, sz; simpl; congruence);
    try (destruct sx, sy; simpl; congruence);
    try (destruct sx, sz; simpl; congruence);
    try (destruct sy, sz; simpl; congruence).
  destruct sx, sy, sz; simpl; try congruence; rewrite !L;
    rewrite ?compare_pos_lt, ?compare_neg_lt; intros H1 H2;
    try discriminate.
  - exact (lex_lt_trans _ _ _ _ _ _ H2 H1).
  - exact (lex_lt_trans _ _ _ _ _ _ H1 H2).
Qed.

Lemma ltb_trans (x y z : float) :
  (x <? y) = true -> (y <? z) = true -> (x <? z) = true.
Proof. rewrite !ltb_spec. apply SFltb_trans. Qed.

(** The two zeros compare equal to each other and alike to everything
    else. *)
Lemma is_zero_ltb_l (x y : float) :
  is_zero x = true -> (x <? y) = (0 <? y).
Proof.
  unfold is_zero. rewrite FloatAxioms.eqb_spec, !ltb_spec. unfold SFeqb, SFltb.
  change (Prim2SF zero) with (S754_zero false).
  change (Prim2SF 0) with (S754_zero false).
  destruct (Prim2SF x) as [sx|sx| |sx mx ex]; simpl; try discriminate;
    try (destruct sx; discriminate).
  reflexivity.
Qed.

Lemma is_zero_ltb_r (x y : float) :
  is_zero x = true -> (y <? x) = (y <? 0).
Proof.
  unfold is_zero. rewrite FloatAxioms.eqb_spec, !ltb_spec. unfold SFeqb, SFltb.
  change (Prim2SF zero) with (S754_zero false).
  change (Prim2SF 0) with (S754_zero false).
  destruct (Prim2SF x) as [sx|sx| |sx mx ex]; simpl; try discriminate;
    try (destruct sx; discriminate).
  destruct (Prim2SF y); reflexivity.
Qed.

Lemma nan_ltb_l (y : float) : (nan <? y) = false.
Proof. rewrite ltb_spec. reflexivity. Qed.

Lemma eqb_sym (x y : float) : (x =? y) = (y =? x).
Proof.
  rewrite !FloatAxioms.eqb_spec. unfold SFeqb.
  rewrite (SFcompare_swap (Prim2SF x) (Prim2SF y)).
  destruct (SFcompare (Prim2SF x) (Prim2SF y)) as [[ | | ]|]; reflexivity.
Qed.

(** A number that is neither below nor above a non-zero number is not a
    zero. *)
Lemma tie_not_zero (v b : float) :
  is_nan b = false -> is_zero b = false ->
  (v <? b) = false -> (b <? v) = false -> is_zero v = false.
Proof.
  intros Hn Hz H1 H2. destruct (is_zero v) eqn:Z; [|reflexivity].
  rewrite (is_zero_ltb_l v b Z) in H1. rewrite (is_zero_ltb_r v b Z) in H2.
  unfold is_zero in Hz. change zero with 0 in Hz.
  rewrite (trichotomy b 0 Hn eq_refl H2 Hz) in H1. discriminate H1.
Qed.

End FloatOrder.

(** * Facts on [Math.max] and [Math.min] *)

Section MathFacts.

(** [Math.max a b] is never below [b], nor below [a]. *)
Lemma max_not_below_r (a b : float) : (Math.max a b <? b) = false.
Proof.
  unfold Math.max.
  destruct (is_nan a || is_nan b); [apply nan_ltb_l|].
  destruct (a <? b) eqn:Hab; [apply ltb_irrefl|].
  destruct (b <? a) eqn:Hba; [exact Hab|].
  destruct (is_zero a); [destruct (get_sign a)|];
    first [exact Hab | apply ltb_irrefl].
Qed.

Lemma max_not_below_l (a b : float) : (Math.max a b <? a) = false.
Proof.
  unfold Math.max.
  destruct (is_nan a || is_nan b); [apply nan_ltb_l|].
  destruct (a <? b) eqn:Hab; [exact (ltb_asym _ _ Hab)|].
  destruct (b <? a) eqn:Hba; [apply ltb_irrefl|].
  destruct (is_zero a); [destruct (get_sign a)|];
    first [exact Hba | apply ltb_irrefl].
Qed.

Lemma max_is_nan (a b : float) :
  is_nan a = false -> is_nan b = false -> is_nan (Math.max a b) = false.
Proof.
  intros Ha Hb. unfold Math.max. rewrite Ha, Hb. simpl.
  destruct (a <? b); [exact Hb|].
  destruct (b <? a); [exact Ha|].
  destruct (is_zero a); [destruct (get_sign a)|]; assumption.
Qed.

Lemma max_min_is_clamp (v lo hi : float) :
  is_nan v = false ->
  is_zero lo = false -> is_zero hi = false -> (lo <? hi) = true ->
  Math.max (Math.min v hi) lo = clamp v lo hi.
Proof.
  intros Hv Zlo Zhi Hlh.
  destruct (ltb_not_nan _ _ Hlh) as [Nlo Nhi].
  unfold clamp, Math.max, Math.min. rewrite Hv, Nhi. simpl.
  destruct (v <? lo) eqn:Hvl.
  - rewrite (ltb_trans _ _ _ Hvl Hlh), Hv, Nlo, Hvl. reflexivity.
  - destruct (hi <? v) eqn:Hhv.
    + rewrite (ltb_asym _ _ Hhv), Nhi, Nlo, (ltb_asym _ _ Hlh), Hlh.
      reflexivity.
    + assert (Hmin : (if v <? hi then v
                      else if is_zero v then if get_sign v then v else hi
                      else v) = v).
      { destruct (v <? hi) eqn:Hvh; [reflexivity|].
        rewrite (tie_not_zero v hi Nhi Zhi Hvh Hhv). reflexivity. }
      rewrite Hmin, Hv, Nlo, Hvl. simpl.
      destruct (lo <? v) eqn:Hlv; [reflexivity|].
      rewrite (tie_not_zero v lo Nlo Zlo Hvl Hlv). reflexivity.
Qed.

End MathFacts.

(** * Release of a drag *)

Section Release.

Lemma abs_not_nan (v : float) :
  is_nan (Math.abs v) = false -> is_nan v = false.
Proof.
  unfold Math.abs. rewrite !is_nan_Prim2SF, abs_spec.
  intros H E. apply H. rewrite E. reflexivity.
Qed.

(** The listener reads [moveHistory], [pos], [min] and [max]; releasing the
    pointer capture and removing the CSS class change none of them. *)
Lemma on_pointerup_unfold (s : CustomScroll) :
  on_pointerup s =
  let s1 := set_active false
              (match pointerId s with
               | Some _ => set_pointerId None s
               | None => s
               end) in
  if out_of_bounds s then
    set_state Spring (set_springTarget (violated_bound s) s1)
  else if Math.abs (estimateVelocity s) >? STOP_VEL then
    set_state Decel
      (set_vel (Math.max (Math.min (estimateVelocity s) MAX_VEL) (- MAX_VEL)) s1)
  else set_state Idle s1.
Proof.
  destruct s as [vh0 ch0 mn mx p v tg st [id|] ly lt mh ac]; reflexivity.
Qed.

(** The velocity handed to [Decel] is the estimate clamped to
    [[-MAX_VEL, MAX_VEL]]. *)
Lemma release_velocity_clamped (v : float) :
  (Math.abs v >? STOP_VEL) = true ->
  Math.max (Math.min v MAX_VEL) (- MAX_VEL) = clamp v (-2000) 2000.
Proof.
  intros H. apply max_min_is_clamp; try reflexivity.
  apply abs_not_nan. exact (proj2 (ltb_not_nan _ _ H)).
Qed.

End Release.

(** C1. On pointer up the next state is decided in strict priority order.
    If the position is below [min] or above [max] the state becomes [Spring]
    and [springTarget] the violated bound, whatever the estimated velocity
    (the velocity field is not touched).  Otherwise, if the estimate [v] has
    [|v| > 5], the velocity becomes [clamp(v, -2000, 2000)] and the state
    [Decel].  Otherwise the state becomes [Idle].  The position is never
    changed by the release. *)
Theorem release_decision (s : CustomScroll) :
  let v := estimateVelocity s in
  let s' := on_pointerup s in
  (out_of_bounds s = true ->
     state s' = Spring /\ vel s' = vel s /\
     ((pos s <? min s) = true -> springTarget s' = min s) /\
     ((max s <? min s) = false -> (pos s >? max s) = true ->
      springTarget s' = max s)) /\
  (out_of_bounds s = false -> (Math.abs v >? 5) = true ->
     state s' = Decel /\ vel s' = clamp v (-2000) 2000) /\
  (out_of_bounds s = false -> (Math.abs v >? 5) = false -> state s' = Idle) /\
  pos s' = pos s.
Proof.
  intros v s'. subst v s'. rewrite on_pointerup_unfold.
  change STOP_VEL with 5.
  destruct (out_of_bounds s) eqn:Hoob; cbv zeta.
  - repeat split; try discriminate.
    + destruct (pointerId s); reflexivity.
    + intros Hlo. cbn. unfold violated_bound. rewrite Hlo. reflexivity.
    + intros Hord Hhi. cbn. unfold violated_bound.
      destruct (pos s <? min s) eqn:Hlo; [|reflexivity].
      rewrite (ltb_trans _ _ _ Hhi Hlo) in Hord. discriminate Hord.
    + destruct (pointerId s); reflexivity.
  - destruct (Math.abs (estimateVelocity s) >? 5) eqn:Hv.
    + repeat split; try discriminate.
      * cbn. apply release_velocity_clamped. exact Hv.
      * destruct (pointerId s); reflexivity.
    + repeat split; try discriminate.
      destruct (pointerId s); reflexivity.
Qed.

(** The two releases the specification lists: a drag released at position
    [-50] springs back to [0]; a drag released with estimated velocity [3000]
    coasts at velocity [2000]. *)
Lemma release_decision_witness :
  let a := run [pointerdown 1 100 0; pointermove 50 16] (constructor 500 1500) in
  let b := run [pointerdown 1 0 0; pointermove 30 10] (constructor 500 1500) in
  (pos a = -50 /\ state (on_pointerup a) = Spring
   /\ springTarget (on_pointerup a) = 0) /\
  (estimateVelocity b = 3000 /\ state (on_pointerup b) = Decel
   /\ vel (on_pointerup b) = 2000).
Proof.
  intros a b.
  destruct (release_decision a) as (Ha & _).
  destruct (release_decision b) as (_ & Hb & _).
  destruct (Ha eq_refl) as (Ha1 & _ & Ha2 & _).
  destruct (Hb eq_refl eq_refl) as (Hb1 & Hb2).
  exact (conj (conj eq_refl (conj Ha1 (Ha2 eq_refl)))
              (conj eq_refl (conj Hb1 (eq_trans Hb2 eq_refl)))).
Defined.

(** * The frame update *)

Section Frame.

(** The [Decel] branch, with the new position and velocity named. *)
Lemma animate_decel (s : CustomScroll) :
  state s = Decel ->
  let p := pos s + vel s * (1 / 60) in
  let w := vel s * FRICTION in
  let s1 := set_vel w (set_pos p s) in
  let s2 := if Math.abs w <? STOP_VEL then set_state Idle s1 else s1 in
  animate s =
  if (p <? min s) || (p >? max s)
  then set_state Spring
         (set_springTarget (if p <? min s then min s else max s) s2)
  else s2.
Proof.
  intros Hst. unfold animate. rewrite Hst. cbv zeta.
  cbn [vel pos set_vel set_pos].
  destruct (Math.abs (vel s * FRICTION) <? STOP_VEL); reflexivity.
Qed.

(** The [Spring] branch, with [delta] named. *)
Lemma animate_spring (s : CustomScroll) :
  state s = Spring ->
  let delta := springTarget s - pos s in
  let s1 := set_pos (pos s + delta * SPRING_K) (set_vel (delta * SPRING_K) s) in
  animate s =
  if Math.abs delta <? 0.5
  then set_state Idle (set_pos (springTarget s) s1)
  else s1.
Proof.
  intros Hst. unfold animate. rewrite Hst. reflexivity.
Qed.

Lemma animate_rest (s : CustomScroll) :
  state s = Drag \/ state s = Idle -> animate s = s.
Proof.
  intros [Hst|Hst]; unfold animate; rewrite Hst; reflexivity.
Qed.

End Frame.

(** C2. A tick in [Decel] first advances the position by
    [velocity * (1/60)] and then multiplies the velocity by [0.95].  Then the
    two exit tests run in order: [|velocity| < 5] makes the state [Idle], and
    the bounds test, when it holds, overrides with [Spring] and
    [springTarget] the violated bound.  So the tick never ends [Idle] with
    the position out of bounds. *)
Theorem decel_tick (s : CustomScroll) :
  state s = Decel ->
  let s' := animate s in
  pos s' = pos s + vel s * (1 / 60) /\
  vel s' = vel s * 0.95 /\
  min s' = min s /\ max s' = max s /\
  (out_of_bounds s' = true ->
     state s' = Spring /\
     ((pos s' <? min s) = true -> springTarget s' = min s) /\
     ((max s <? min s) = false -> (pos s' >? max s) = true ->
      springTarget s' = max s)) /\
  (out_of_bounds s' = false ->
     springTarget s' = springTarget s /\
     ((Math.abs (vel s') <? 5) = true -> state s' = Idle) /\
     ((Math.abs (vel s') <? 5) = false -> state s' = Decel)) /\
  (state s' = Idle -> out_of_bounds s' = false).
Proof.
  intros Hst s'. subst s'. rewrite (animate_decel s Hst). cbv zeta.
  change STOP_VEL with 5. change FRICTION with 0.95.
  set (p := pos s + vel s * (1 / 60)).
  destruct (Math.abs (vel s * 0.95) <? 5) eqn:Hv;
    destruct (p <? min s) eqn:Hlo; destruct (max s <? p) eqn:Hhi;
    unfold out_of_bounds;
    cbn [orb pos min max vel state springTarget
         set_state set_vel set_pos set_springTarget];
    rewrite ?Hlo, ?Hhi, ?Hv; cbn [orb];
    repeat split; intros; try congruence;
    try (rewrite (ltb_trans _ _ _ Hhi Hlo) in *; discriminate).
Qed.

(** A coasting instance whose velocity is [4]: the next tick moves the
    position by [4/60] and, the velocity now being [3.8], ends [Idle]. *)
Lemma decel_tick_witness :
  let s := set_state Decel (set_vel 4 (set_pos 100 (constructor 500 1500))) in
  pos (animate s) = 100 + 4 * (1 / 60) /\ vel (animate s) = 4 * 0.95
  /\ state (animate s) = Idle.
Proof.
  intros s.
  destruct (decel_tick s eq_refl) as (Hp & Hv & _ & _ & _ & Hin & _).
  destruct (Hin eq_refl) as (_ & Hidle & _).
  exact (conj Hp (conj Hv (Hidle eq_refl))).
Defined.

(** C3. A tick in [Spring] computes [delta = springTarget - position] and
    sets [velocity = delta * 0.15]; when [|delta| < 0.5] it leaves the
    position exactly on [springTarget] and the state [Idle], otherwise the
    position has advanced by the velocity and the state is still [Spring].
    From position [10] with [springTarget = 0] one tick gives [8.5]; the
    following ticks bring the position strictly closer to [0] each time, from
    above, for 19 ticks, and the 20th gives exactly [0] and [Idle]. *)
Theorem spring_tick :
  (forall s : CustomScroll,
     state s = Spring ->
     let delta := springTarget s - pos s in
     let s' := animate s in
     vel s' = delta * 0.15 /\ springTarget s' = springTarget s /\
     ((Math.abs delta <? 0.5) = true ->
        pos s' = springTarget s /\ state s' = Idle) /\
     ((Math.abs delta <? 0.5) = false ->
        pos s' = pos s + delta * 0.15 /\ state s' = Spring)) /\
  (state spring_example = Spring /\ pos spring_example = 10 /\
   springTarget spring_example = 0 /\
   pos (ticks 1 spring_example) = 8.5 /\
   (forall k, (k < 19)%nat ->
      state (ticks (S k) spring_example) = Spring /\
      (0 <? pos (ticks (S k) spring_example)) = true /\
      (pos (ticks (S k) spring_example) <? pos (ticks k spring_example)) = true) /\
   pos (ticks 20 spring_example) = 0 /\
   state (ticks 20 spring_example) = Idle).
Proof.
  split.
  - intros s Hst delta s'. subst delta s'. rewrite (animate_spring s Hst).
    cbv zeta. change SPRING_K with 0.15.
    destruct (Math.abs (springTarget s - pos s) <? 0.5) eqn:Hd;
      cbn [vel pos springTarget state set_vel set_pos set_state];
      repeat split; intros; congruence.
  - do 4 (split; [reflexivity|]). split; [|split; reflexivity].
    intros k Hk.
    assert (E : In k (seq 0 19)) by (apply in_seq; lia).
    cbn [seq In] in E.
    repeat (destruct E as [<- | E]; [vm_compute; repeat split|]).
    destruct E.
Qed.

(** One tick of the example: [delta = -10] is not below [0.5] in magnitude,
    so the position advances to [10 + (-10 * 0.15) = 8.5]. *)
Lemma spring_tick_witness :
  pos (animate spring_example) = 8.5 /\ state (animate spring_example) = Spring.
Proof.
  destruct (proj1 spring_tick spring_example eq_refl) as (_ & _ & _ & H).
  destruct (H eq_refl) as (Hp & Hs).
  exact (conj (eq_trans Hp eq_refl) Hs).
Defined.

(** * Dragging *)

Section Dragging.

Lemma on_pointermove_drag (y now : float) (s : CustomScroll) :
  state s = Drag ->
  state (on_pointermove y now s) = Drag /\
  lastY (on_pointermove y now s) = y /\
  min (on_pointermove y now s) = min s /\
  max (on_pointermove y now s) = max s /\
  vel (on_pointermove y now s) = vel s /\
  springTarget (on_pointermove y now s) = springTarget s /\
  pos (on_pointermove y now s) =
    (if out_of_bounds s then pos s + (y - lastY s) * 0.4
     else pos s + (y - lastY s)).
Proof.
  intros Hst. unfold on_pointermove. rewrite Hst. cbn [scroll_state_eqb negb].
  cbv zeta.
  replace (out_of_bounds (set_lastY y s)) with (out_of_bounds s) by reflexivity.
  destruct (out_of_bounds s); cbn; repeat split; exact Hst.
Qed.

(** Outside [Drag] the listener returns at once. *)
Lemma on_pointermove_not_drag (y now : float) (s : CustomScroll) :
  state s <> Drag -> on_pointermove y now s = s.
Proof.
  intros Hst. unfold on_pointermove.
  destruct (state s); try reflexivity. congruence.
Qed.

Lemma drag_cons (m : float * float) (ms : list (float * float)) (s : CustomScroll) :
  drag (m :: ms) s = drag ms (on_pointermove (fst m) (snd m) s).
Proof. reflexivity. Qed.

(** A drag whose moves all start in bounds adds the raw displacements to
    the position, one after the other. *)
Lemma drag_in_bounds (ms : list (float * float)) :
  forall s : CustomScroll,
    state s = Drag -> moves_in_bounds ms s = true ->
    pos (drag ms s)
    = fold_left PrimFloat.add (displacements (lastY s) (map fst ms)) (pos s).
Proof.
  induction ms as [|m ms IH]; intros s Hst Hin.
  - reflexivity.
  - cbn [moves_in_bounds] in Hin. apply andb_prop in Hin.
    destruct Hin as [Hs Hms]. apply negb_true_iff in Hs.
    destruct (on_pointermove_drag (fst m) (snd m) s Hst)
      as (Hst' & Hy & _ & _ & _ & _ & Hp).
    rewrite Hs in Hp.
    rewrite drag_cons, (IH _ Hst' Hms), Hy, Hp. reflexivity.
Qed.

End Dragging.

(** C4. A move handled in [Drag] changes the position by the raw pointer
    displacement [clientY - lastY], undamped (factor 1), when the position
    before the move is within the bounds, and by [0.4] times the displacement
    when it is outside.  Hence after a drag whose moves all start in bounds
    the position is the start position plus the displacements, added in
    order; from position [0] it is their sum. *)
Theorem drag_move :
  (forall (s : CustomScroll) (clientY now : float),
     state s = Drag ->
     let d := clientY - lastY s in
     let s' := on_pointermove clientY now s in
     (out_of_bounds s = false -> pos s' = pos s + d) /\
     (out_of_bounds s = true -> pos s' = pos s + d * 0.4) /\
     lastY s' = clientY /\ state s' = Drag) /\
  (forall (s : CustomScroll) (ms : list (float * float)),
     state s = Drag -> moves_in_bounds ms s = true ->
     pos (drag ms s)
     = fold_left PrimFloat.add (displacements (lastY s) (map fst ms)) (pos s)) /\
  (forall (s : CustomScroll) (ms : list (float * float)),
     state s = Drag -> moves_in_bounds ms s = true -> pos s = 0 ->
     pos (drag ms s) = sum (displacements (lastY s) (map fst ms))).
Proof.
  split; [|split].
  - intros s y now Hst d s'. subst d s'.
    destruct (on_pointermove_drag y now s Hst) as (Hst' & Hy & _ & _ & _ & _ & Hp).
    rewrite Hp. repeat split; try assumption; intros ->; reflexivity.
  - intros s ms. apply drag_in_bounds.
  - intros s ms Hst Hin H0. rewrite (drag_in_bounds ms s Hst Hin), H0.
    reflexivity.
Qed.

(** A drag of three moves from the top of a content of scrollable range
    [1000]: down by [30], down by [25], up by [15]; every move starts in
    bounds and the position ends at [30 + 25 + -15 = 40].  One more move
    from [-50], outside the bounds, by [10] gives [-50 + 10 * 0.4 = -46]. *)
Lemma drag_move_witness :
  let s := on_pointerdown 1 100 0 (constructor 500 1500) in
  let ms := [(130, 16); (155, 32); (140, 48)] in
  let o := run [pointerdown 1 100 0; pointermove 50 16] (constructor 500 1500) in
  pos (drag ms s) = 40 /\ pos (on_pointermove 60 32 o) = -46.
Proof.
  intros s ms o.
  destruct drag_move as (Hone & _ & Hsum).
  destruct (Hone o 60 32 eq_refl) as (_ & Hout & _).
  exact (conj (eq_trans (Hsum s ms eq_refl eq_refl eq_refl) eq_refl)
              (eq_trans (Hout eq_refl) eq_refl)).
Defined.

(** * The velocity estimate *)

Section Estimate.

(** The single pass of the loop computes the two sums of the
    specification. *)
Lemma totals_acc (h : list move) :
  forall a b : float,
    fold_left (fun acc m => (fst acc + dy m, snd acc + dt m)) h (a, b)
    = (fold_left PrimFloat.add (map dy h) a,
       fold_left PrimFloat.add (map dt h) b).
Proof.
  induction h as [|m h IH]; intros a b.
  - reflexivity.
  - cbn [fold_left map fst snd]. apply IH.
Qed.

Lemma totals_sums (h : list move) :
  totals h = (sum_displacement h, sum_elapsedTime h).
Proof. apply totals_acc. Qed.

End Estimate.

(** C5 (as amended).  [estimateVelocity] returns (sum of all displacements / sum
    of all elapsed times) * 1000 when the summed elapsed time is positive
    and [0] otherwise; it returns [0] on an empty history; on the
    one-entry history [{10, 16.7}] it returns [598.80239520958094], that is
    about [598.8]. *)
Theorem estimateVelocity_spec :
  (forall s : CustomScroll,
     let h := moveHistory s in
     ((sum_elapsedTime h >? 0) = true ->
        estimateVelocity s = sum_displacement h / sum_elapsedTime h * 1000) /\
     ((sum_elapsedTime h >? 0) = false -> estimateVelocity s = 0)) /\
  (forall s : CustomScroll, moveHistory s = [] -> estimateVelocity s = 0) /\
  (forall s : CustomScroll,
     moveHistory s = one_move_history ->
     estimateVelocity s = 598.80239520958094 /\
     (598.8 <? estimateVelocity s) = true /\
     (estimateVelocity s <? 598.81) = true).
Proof.
  split; [|split].
  - intros s h. subst h. unfold estimateVelocity.
    rewrite totals_sums. cbn [fst snd].
    destruct (sum_elapsedTime (moveHistory s) >? 0); split; congruence.
  - intros s Hh. unfold estimateVelocity. rewrite Hh. reflexivity.
  - intros s Hh. unfold estimateVelocity. rewrite Hh.
    repeat split.
Qed.

(** The estimate right after the one move of the example has been
    recorded. *)
Lemma estimateVelocity_spec_witness :
  let s := run [pointerdown 1 0 0; pointermove 10 16.7] (constructor 500 1500) in
  moveHistory s = one_move_history /\ estimateVelocity s = 10 / 16.7 * 1000.
Proof.
  intros s.
  destruct estimateVelocity_spec as (Hsum & _ & _).
  destruct (Hsum s) as (Hpos & _).
  exact (conj eq_refl (eq_trans (Hpos eq_refl) eq_refl)).
Defined.

(** On the history [{10, 16.7}] the estimate is not [599.4] to one decimal
    place; it is farther than [0.5] from it. *)
Lemma estimateVelocity_not_599_4 :
  let s := run [pointerdown 1 0 0; pointermove 10 16.7] (constructor 500 1500) in
  moveHistory s = one_move_history /\
  (Math.abs (estimateVelocity s - 599.4) <=? 0.5) = false /\
  (estimateVelocity s <? 599) = true.
Proof. vm_compute. repeat split. Qed.

(** * Invariants of the controller *)

Section Invariant.

Variables clientHeight scrollHeight : float.

Local Abbreviation Inv := (invariant clientHeight scrollHeight).

Lemma invariant_constructor : Inv (constructor clientHeight scrollHeight).
Proof.
  unfold invariant, constructor, animate, fields, out_of_bounds.
  cbn [state vh ch min max pos vel springTarget].
  repeat split; try (intros; discriminate); auto.
  intros _. change (0 <? 0) with false.
  apply max_not_below_r.
Qed.

Lemma invariant_pointerdown id y now s :
  Inv s -> Inv (on_pointerdown id y now s).
Proof.
  unfold invariant, on_pointerdown, out_of_bounds. cbn.
  intros (Hvh & Hch & Hmin & Hmax & Htg & Hin & Hv).
  repeat split; auto.
  intros [H|H]; discriminate H.
Qed.

Lemma invariant_pointermove y now s :
  Inv s -> Inv (on_pointermove y now s).
Proof.
  intros HI. destruct (state s) eqn:Hst;
    try (rewrite on_pointermove_not_drag by congruence; exact HI).
  destruct HI as (Hvh & Hch & Hmin & Hmax & Htg & Hin & Hv).
  destruct (on_pointermove_drag y now s Hst)
    as (Hst' & _ & Hmin' & Hmax' & Hv' & Htg' & _).
  unfold invariant. rewrite Hmin', Hmax', Hv', Htg', Hst'.
  repeat split; auto.
  - unfold on_pointermove. rewrite Hst. cbn. destruct (out_of_bounds _); exact Hvh.
  - unfold on_pointermove. rewrite Hst. cbn. destruct (out_of_bounds _); exact Hch.
  - intros [H|H]; discriminate H.
Qed.

Lemma invariant_pointerup s : Inv s -> Inv (on_pointerup s).
Proof.
  intros (Hvh & Hch & Hmin & Hmax & Htg & Hin & Hv).
  rewrite on_pointerup_unfold. cbv zeta.
  unfold invariant.
  destruct (out_of_bounds s) eqn:Hoob;
    [|destruct (Math.abs (estimateVelocity s) >? STOP_VEL)];
    destruct (pointerId s);
    cbn [vh ch min max pos vel springTarget state
         set_state set_vel set_springTarget set_active set_pointerId];
    (repeat split; auto; try (intros [H|H]; discriminate H);
     try (intros H; discriminate H)).
  all: unfold violated_bound; destruct (pos s <? min s); auto.
Qed.

Lemma spring_target_in_bounds s :
  Inv s -> (springTarget s <? min s) || (springTarget s >? max s) = false.
Proof.
  intros (_ & _ & Hmin & Hmax & Htg & _ & _).
  assert (H0 : (max s <? 0) = false)
    by (rewrite Hmax; apply max_not_below_r).
  destruct Htg as [-> | ->]; rewrite Hmin.
  - rewrite H0. reflexivity.
  - rewrite H0, ltb_irrefl. reflexivity.
Qed.

Lemma invariant_animate s : Inv s -> Inv (animate s).
Proof.
  intros HI. pose proof (spring_target_in_bounds s HI) as Hsnap.
  destruct HI as (Hvh & Hch & Hmin & Hmax & Htg & Hin & Hv).
  destruct (state s) eqn:Hst.
  - rewrite animate_rest by auto.
    unfold invariant. rewrite Hst. repeat split; assumption.
  - rewrite (animate_decel s Hst). cbv zeta.
    set (p := pos s + vel s * (1 / 60)).
    unfold invariant, out_of_bounds.
    destruct ((p <? min s) || (p >? max s)) eqn:Hoob;
      destruct (Math.abs (vel s * FRICTION) <? STOP_VEL);
      cbn [vh ch min max pos vel springTarget state
           set_state set_vel set_pos set_springTarget];
      rewrite ?Hst;
      (repeat split; auto; try (intros [H|H]; discriminate H);
       try (intros H; discriminate H)).
    all: destruct (p <? min s); auto.
  - rewrite (animate_spring s Hst). cbv zeta.
    unfold invariant, out_of_bounds.
    destruct (Math.abs (springTarget s - pos s) <? 0.5);
      cbn [vh ch min max pos vel springTarget state
           set_state set_vel set_pos set_springTarget];
      rewrite ?Hst;
      (repeat split; auto; try (intros [H|H]; discriminate H);
       try (intros H; discriminate H)).
  - rewrite animate_rest by auto.
    unfold invariant. rewrite Hst. repeat split; assumption.
Qed.

Lemma invariant_dispatch s e : Inv s -> Inv (dispatch s e).
Proof.
  destruct e; cbn [dispatch];
    auto using invariant_pointerdown, invariant_pointermove,
               invariant_pointerup, invariant_animate.
Qed.

Lemma invariant_run es : forall s, Inv s -> Inv (run es s).
Proof.
  induction es as [|e es IH]; intros s HI.
  - exact HI.
  - apply IH, invariant_dispatch, HI.
Qed.

Lemma invariant_reachable es :
  Inv (run es (constructor clientHeight scrollHeight)).
Proof. apply invariant_run, invariant_constructor. Qed.

End Invariant.

(** C6. In every state an instance can reach, [Idle] is held with the
    position within [[min, max]]: the position is neither below [min] nor
    above [max], and, being a number (with a numeric geometry), it satisfies
    [min <= pos <= max].  Every way into [Idle] (a release with a low
    velocity, the stop of [Decel] with its bounds override, the snap of
    [Spring] onto [springTarget]) is covered by the induction over the
    events; and a tick in [Idle] changes nothing. *)
Theorem idle_within_bounds :
  (forall (clientHeight scrollHeight : float) (es : list event),
     let s := run es (constructor clientHeight scrollHeight) in
     state s = Idle ->
     out_of_bounds s = false /\
     (is_nan (scrollHeight - clientHeight) = false ->
      is_nan (pos s) = false -> within_bounds s = true)) /\
  (forall s : CustomScroll, state s = Idle -> animate s = s).
Proof.
  split.
  - intros vh0 ch0 es s Hst.
    destruct (invariant_reachable vh0 ch0 es)
      as (_ & _ & Hmin & Hmax & _ & Hin & _).
    fold s in Hmin, Hmax, Hin.
    pose proof (Hin (or_introl Hst)) as Hoob.
    split; [exact Hoob|].
    intros Hgeo Hpos. unfold out_of_bounds in Hoob.
    apply orb_false_iff in Hoob. destruct Hoob as [Hlo Hhi].
    unfold within_bounds. apply andb_true_iff. split.
    + apply ltb_false_leb; try assumption. rewrite Hmin. reflexivity.
    + apply ltb_false_leb; try assumption.
      rewrite Hmax. apply max_is_nan; [exact Hgeo | reflexivity].
  - intros s Hst. apply animate_rest. right. exact Hst.
Qed.

(** A drag released slowly inside the range, a coast that stops, and the
    spring example after its snap: three ways into [Idle], each within the
    bounds. *)
Lemma idle_within_bounds_witness :
  let a := run [pointerdown 1 100 0; pointermove 130 10000; pointerup]
               (constructor 500 1500) in
  let b := run ([pointerdown 1 100 0; pointermove 101 100; pointerup]
                ++ repeat frame 14) (constructor 500 1500) in
  let c := run ([pointerdown 1 0 0; pointermove 10 16; pointerup]
                ++ repeat frame 20) (constructor 500 300) in
  (state a = Idle /\ within_bounds a = true) /\
  (state b = Idle /\ within_bounds b = true) /\
  (state c = Idle /\ within_bounds c = true).
Proof.
  intros a b c.
  pose proof (proj1 idle_within_bounds) as H.
  assert (Ha : state a = Idle) by (vm_compute; reflexivity).
  assert (Hb : state b = Idle) by (vm_compute; reflexivity).
  assert (Hc : state c = Idle) by (vm_compute; reflexivity).
  refine (conj (conj Ha (proj2 (H 500 1500 _ Ha) _ _))
         (conj (conj Hb (proj2 (H 500 1500 _ Hb) _ _))
               (conj Hc (proj2 (H 500 300 _ Hc) _ _))));
    vm_compute; reflexivity.
Defined.

(** * The velocity field outside motion *)

(** C8 (as amended).  In every state an instance can reach, the velocity is
    [0] whenever the state is [Drag].  Entering [Idle] does not reset the
    field: after the stop of [Decel] it holds the last decayed velocity, of
    magnitude below [5], and after the snap of [Spring] the last spring
    velocity [delta * 0.15]. *)
Theorem drag_velocity_zero :
  (forall (clientHeight scrollHeight : float) (es : list event),
     let s := run es (constructor clientHeight scrollHeight) in
     state s = Drag -> vel s = 0) /\
  (forall s : CustomScroll,
     state s = Decel -> state (animate s) = Idle ->
     vel (animate s) = vel s * 0.95 /\
     (Math.abs (vel (animate s)) <? 5) = true) /\
  (forall s : CustomScroll,
     state s = Spring -> state (animate s) = Idle ->
     vel (animate s) = (springTarget s - pos s) * 0.15).
Proof.
  split; [|split].
  - intros vh0 ch0 es s Hst.
    destruct (invariant_reachable vh0 ch0 es) as (_ & _ & _ & _ & _ & _ & Hv).
    exact (Hv Hst).
  - intros s Hst. rewrite (animate_decel s Hst). cbv zeta.
    change STOP_VEL with 5. change FRICTION with 0.95.
    destruct ((pos s + vel s * (1 / 60) <? min s)
              || (pos s + vel s * (1 / 60) >? max s));
      destruct (Math.abs (vel s * 0.95) <? 5) eqn:Hv;
      cbn [vel state set_state set_vel set_pos set_springTarget];
      rewrite ?Hst; intros H; try discriminate H.
    split; [reflexivity | exact Hv].
  - intros s Hst. rewrite (animate_spring s Hst). cbv zeta.
    change SPRING_K with 0.15.
    destruct (Math.abs (springTarget s - pos s) <? 0.5);
      cbn [vel state set_state set_vel set_pos]; intros H; reflexivity.
Qed.

(** During a drag of two moves the velocity is [0]. *)
Lemma drag_velocity_zero_witness :
  let s := run [pointerdown 1 100 0; pointermove 130 16; pointermove 170 32]
               (constructor 500 1500) in
  state s = Drag /\ pos s = 70 /\ vel s = 0.
Proof.
  intros s.
  exact (conj eq_refl
          (conj eq_refl (proj1 drag_velocity_zero 500 1500 _
                           (eq_refl : state s = Drag)))).
Defined.

(** A slow drag (one unit in 100 ms, estimate [10]) released at position
    [1]: after 14 frames the coast has stopped, and the instance is [Idle]
    with velocity [4.87...], not [0]. *)
Lemma idle_velocity_nonzero :
  ~ (forall (clientHeight scrollHeight : float) (es : list event),
       let s := run es (constructor clientHeight scrollHeight) in
       state s = Idle \/ state s = Drag -> vel s = 0).
Proof.
  intros H.
  specialize (H 500 1500
                ([pointerdown 1 100 0; pointermove 101 100; pointerup]
                 ++ repeat frame 14) (or_introl eq_refl)).
  vm_compute in H.
  assert (E : (4.8767497911552962 =? 0) = (0 =? 0)) by (rewrite H; reflexivity).
  vm_compute in E. discriminate E.
Qed.

(** * Cancellation of a pointer session *)

(** C7 (as amended).  The script registers no listener for the cancellation
    of a pointer session: a cancel event changes no field of the instance.
    So a session cancelled during [Drag] leaves the state [Drag] through any
    number of frames that follow, until a pointer-up or pointer-down event
    arrives. *)
Theorem pointercancel_ignored :
  (forall s : CustomScroll, dispatch s pointercancel = s) /\
  (forall (s : CustomScroll) (n : nat),
     state s = Drag -> ticks n (dispatch s pointercancel) = s).
Proof.
  split.
  - intros s. reflexivity.
  - intros s n Hst. cbn [dispatch]. unfold ticks.
    induction n as [|n IH].
    + reflexivity.
    + cbn [repeat run fold_left dispatch].
      rewrite animate_rest by (left; exact Hst). exact IH.
Qed.

(** The cancelled drag of the example is still a drag 600 frames later. *)
Lemma pointercancel_ignored_witness :
  ticks 600 (dispatch dragging_example pointercancel) = dragging_example
  /\ state dragging_example = Drag.
Proof.
  exact (conj (proj2 pointercancel_ignored dragging_example 600%nat eq_refl) eq_refl).
Defined.

(** After a drag by [30] in [10] ms a pointer up starts a coast ([Decel]
    at velocity [2000]), whereas a cancel leaves the instance in [Drag]: the
    cancellation is not treated as the end of the session. *)
Lemma pointercancel_not_release :
  state (dispatch dragging_example pointerup) = Decel /\
  vel (dispatch dragging_example pointerup) = 2000 /\
  state (dispatch dragging_example pointercancel) = Drag /\
  dispatch dragging_example pointercancel <> dispatch dragging_example pointerup /\
  state (ticks 600 (dispatch dragging_example pointercancel)) = Drag.
Proof.
  repeat split; try (vm_compute; reflexivity).
  intros E. apply (f_equal state) in E. vm_compute in E. discriminate E.
Qed.

(** * The thumb *)

Section Thumb.

Lemma Prim2SF_infinite_not_finite (x : float) (sx : bool) :
  Prim2SF x = S754_infinity sx -> is_finite x = false.
Proof.
  intros E. unfold is_finite, is_infinity.
  rewrite FloatAxioms.eqb_spec, abs_spec, E.
  change (SFeqb (SFabs (S754_infinity sx)) (Prim2SF infinity)) with true.
  rewrite orb_true_r. reflexivity.
Qed.

Lemma Prim2SF_nan_not_finite (x : float) :
  Prim2SF x = S754_nan -> is_finite x = false.
Proof.
  intros E. unfold is_finite.
  destruct (is_nan x) eqn:N; [reflexivity|].
  apply is_nan_Prim2SF in N. contradiction.
Qed.

(** Dividing by a zero never gives a finite number. *)
Lemma div_by_zero_not_finite (x y : float) :
  (y =? 0) = true -> is_finite (x / y) = false.
Proof.
  rewrite FloatAxioms.eqb_spec. unfold SFeqb.
  change (Prim2SF 0) with (S754_zero false).
  intros Hy.
  assert (Hz : exists sy, Prim2SF y = S754_zero sy).
  { destruct (Prim2SF y) as [sy|sy| |sy my ey]; simpl in Hy;
      try discriminate Hy; try (destruct sy; discriminate Hy).
    exists sy. reflexivity. }
  destruct Hz as [sy Hz].
  pose proof (div_spec x y) as D. rewrite Hz in D.
  unfold SF64div, SFdiv in D.
  destruct (Prim2SF x) as [sx|sx| |sx mx ex].
  - exact (Prim2SF_nan_not_finite _ D).
  - exact (Prim2SF_infinite_not_finite _ _ D).
  - exact (Prim2SF_nan_not_finite _ D).
  - exact (Prim2SF_infinite_not_finite _ _ D).
Qed.

(** The scrollable range of a numeric geometry is zero or positive. *)
Lemma max_zero_or_positive (clientHeight scrollHeight : float) (es : list event) :
  is_nan (scrollHeight - clientHeight) = false ->
  let s := run es (constructor clientHeight scrollHeight) in
  (max s =? 0) = true \/ (max s >? 0) = true.
Proof.
  intros Hgeo s.
  destruct (invariant_reachable clientHeight scrollHeight es)
    as (_ & _ & _ & Hmax & _).
  fold s in Hmax.
  assert (Hn : is_nan (max s) = false)
    by (rewrite Hmax; apply max_is_nan; [exact Hgeo | reflexivity]).
  assert (H0 : (max s <? 0) = false)
    by (rewrite Hmax; apply max_not_below_r).
  destruct (max s =? 0) eqn:E; [left; reflexivity | right].
  exact (trichotomy (max s) 0 Hn eq_refl H0 E).
Qed.

End Thumb.

(** C9. [updateThumb] guards the division: with [max == 0] (the content
    fits within the viewport) [scrollRatio] is [0], a finite number, where
    the unguarded [pos / max] would not be finite; with [max > 0], which is
    every other case for an instance built from a numeric geometry,
    [scrollRatio] is [pos / max].  The thumb height is
    [Math.max(vh * (vh / ch), 20)] and is never below [20]. *)
Theorem thumb_guard :
  (forall s : CustomScroll,
     ((max s =? 0) = true ->
        scrollRatio s = 0 /\ is_finite (scrollRatio s) = true
        /\ is_finite (pos s / max s) = false) /\
     ((max s >? 0) = true -> scrollRatio s = pos s / max s) /\
     thumbHeight s = Math.max (vh s * (vh s / ch s)) 20 /\
     (thumbHeight s <? 20) = false /\
     height (updateThumb s) = thumbHeight s /\
     translateY (updateThumb s) = (vh s - thumbHeight s) * scrollRatio s) /\
  (forall (clientHeight scrollHeight : float) (es : list event),
     is_nan (scrollHeight - clientHeight) = false ->
     let s := run es (constructor clientHeight scrollHeight) in
     (max s =? 0) = false -> scrollRatio s = pos s / max s).
Proof.
  split.
  - intros s. split; [|split; [|split; [|split; [|split]]]].
    + intros H0. unfold scrollRatio.
      rewrite (proj2 (eqb_not_ltb _ _ H0)).
      split; [reflexivity|]. split; [reflexivity|].
      apply div_by_zero_not_finite. exact H0.
    + intros Hpos. unfold scrollRatio. rewrite Hpos. reflexivity.
    + reflexivity.
    + apply max_not_below_r.
    + reflexivity.
    + reflexivity.
  - intros vh0 ch0 es Hgeo s Hne.
    destruct (max_zero_or_positive vh0 ch0 es Hgeo) as [H|H]; fold s in H.
    + rewrite H in Hne. discriminate Hne.
    + unfold scrollRatio. rewrite H. reflexivity.
Qed.

(** Content shorter than the viewport, dragged to position [10]:
    [max = 0] and the ratio is [0]; content of scrollable range [1000]
    dragged to [250]: the ratio is [0.25]. *)
Lemma thumb_guard_witness :
  let a := run [pointerdown 1 0 0; pointermove 10 16] (constructor 500 300) in
  let b := run [pointerdown 1 0 0; pointermove 250 16] (constructor 500 1500) in
  (max a = 0 /\ scrollRatio a = 0) /\
  (max b = 1000 /\ scrollRatio b = 0.25).
Proof.
  intros a b.
  destruct (proj1 thumb_guard a) as (Ha & _).
  destruct (Ha eq_refl) as (Ha0 & _).
  pose proof (proj2 thumb_guard 500 1500
                [pointerdown 1 0 0; pointermove 250 16] eq_refl eq_refl) as Hb.
  exact (conj (conj eq_refl Ha0) (conj eq_refl (eq_trans Hb eq_refl))).
Defined.

(** * Pointer up outside a drag *)

(** A pointer up received by an instance at rest or coasting never starts
    a spring: such an instance is in bounds. *)
Lemma stray_pointerup_never_springs
  (clientHeight scrollHeight : float) (es : list event) :
  let s := run es (constructor clientHeight scrollHeight) in
  state s = Idle \/ state s = Decel ->
  state (dispatch s pointerup) <> Spring.
Proof.
  intros s Hst.
  destruct (invariant_reachable clientHeight scrollHeight es)
    as (_ & _ & _ & _ & _ & Hin & _).
  fold s in Hin. cbn [dispatch]. rewrite on_pointerup_unfold, (Hin Hst).
  cbv zeta.
  destruct (Math.abs (estimateVelocity s) >? STOP_VEL);
    cbn [state set_state]; discriminate.
Qed.

(** C10 (as amended).  The pointer-up listener does not look at the current
    state: its result is the same whatever [state] holds, so a pointer up
    received outside [Drag] runs the whole release decision, on the
    [moveHistory] left by the last drag (frames and releases do not touch
    the history).  A stray pointer up thereby sets an [Idle] instance
    coasting again, and restarts the coast of a coasting one at the release
    velocity, with no drag in between.  It never sets an instance at rest
    or coasting springing: in every state an instance can reach, [Idle] and
    [Decel] are held in bounds, so the decision there ends in [Decel] or
    [Idle]. *)
Theorem pointerup_unguarded :
  (forall (s : CustomScroll) (st : scroll_state),
     on_pointerup (set_state st s) = on_pointerup s) /\
  (forall s : CustomScroll,
     state s <> Drag ->
     let v := estimateVelocity s in
     let s' := dispatch s pointerup in
     moveHistory s' = moveHistory s /\
     (out_of_bounds s = true ->
        state s' = Spring /\ springTarget s' = violated_bound s) /\
     (out_of_bounds s = false -> (Math.abs v >? 5) = true ->
        state s' = Decel /\ vel s' = Math.max (Math.min v 2000) (-2000)) /\
     (out_of_bounds s = false -> (Math.abs v >? 5) = false ->
        state s' = Idle)) /\
  (forall s : CustomScroll, moveHistory (animate s) = moveHistory s) /\
  (state rested_example = Idle /\
   moveHistory rested_example = [Move 1 100] /\
   state (dispatch rested_example pointerup) = Decel /\
   vel (dispatch rested_example pointerup) = 10) /\
  (state coasting_example = Decel /\
   vel coasting_example = 8.5737500000000004 /\
   state (dispatch coasting_example pointerup) = Decel /\
   vel (dispatch coasting_example pointerup) = 10) /\
  (forall (clientHeight scrollHeight : float) (es : list event),
     let s := run es (constructor clientHeight scrollHeight) in
     state s = Idle \/ state s = Decel ->
     state (dispatch s pointerup) <> Spring /\
     (state (dispatch s pointerup) = Decel \/
      state (dispatch s pointerup) = Idle)).
Proof.
  split; [|split; [|split]].
  - intros s st. rewrite !on_pointerup_unfold.
    destruct s as [vh0 ch0 mn mx p v tg st0 [id|] ly lt mh ac]; reflexivity.
  - intros s _ v s'. subst v s'. cbn [dispatch].
    rewrite on_pointerup_unfold. cbv zeta.
    change STOP_VEL with 5. change MAX_VEL with 2000.
    destruct (out_of_bounds s);
      [|destruct (Math.abs (estimateVelocity s) >? 5)];
      destruct (pointerId s);
      cbn [moveHistory state vel springTarget
           set_state set_vel set_springTarget set_active set_pointerId];
      repeat split; intros; congruence.
  - intros s. unfold animate.
    destruct (state s); try reflexivity; cbv zeta.
    + destruct (Math.abs _ <? STOP_VEL); destruct (out_of_bounds _); reflexivity.
    + destruct (Math.abs _ <? 0.5); reflexivity.
  - split; [vm_compute; repeat split|].
    split; [vm_compute; repeat split|].
    intros vh0 ch0 es s Hst.
    split; [exact (stray_pointerup_never_springs vh0 ch0 es Hst)|].
    destruct (invariant_reachable vh0 ch0 es) as (_ & _ & _ & _ & _ & Hin & _).
    fold s in Hin. cbn [dispatch]. rewrite on_pointerup_unfold, (Hin Hst).
    cbv zeta.
    destruct (Math.abs (estimateVelocity s) >? STOP_VEL);
      cbn [state set_state]; auto.
Qed.

(** The rested instance of the example receives a pointer up: the estimate
    from the old history is [10], above the threshold, and the instance
    coasts again. *)
Lemma pointerup_unguarded_witness :
  state rested_example <> Drag /\ estimateVelocity rested_example = 10 /\
  state (dispatch rested_example pointerup) = Decel.
Proof.
  assert (Hst : state rested_example <> Drag)
    by (vm_compute; intros E; discriminate E).
  destruct (proj1 (proj2 pointerup_unguarded) rested_example Hst)
    as (_ & _ & Hdecel & _).
  assert (Hoob : out_of_bounds rested_example = false)
    by (vm_compute; reflexivity).
  assert (Hv : (Math.abs (estimateVelocity rested_example) >? 5) = true)
    by (vm_compute; reflexivity).
  assert (He : estimateVelocity rested_example = 10)
    by (vm_compute; reflexivity).
  exact (conj Hst (conj He (proj1 (Hdecel Hoob Hv)))).
Defined.

(** No instance at rest or coasting is set springing by a pointer up: there
    is no geometry and no sequence of events that reaches such a state. *)
Lemma stray_pointerup_into_spring_impossible :
  ~ (exists (clientHeight scrollHeight : float) (es : list event),
       let s := run es (constructor clientHeight scrollHeight) in
       (state s = Idle \/ state s = Decel) /\
       state (dispatch s pointerup) = Spring).
Proof.
  intros (vh0 & ch0 & es & Hst & Hspring).
  exact (stray_pointerup_never_springs vh0 ch0 es Hst Hspring).
Qed.

(** * The pointer session *)

Section Session.

(** What a frame leaves alone: the geometry, the bounds and everything the
    pointer listeners keep. *)
Lemma animate_keeps (s : CustomScroll) :
  vh (animate s) = vh s /\ ch (animate s) = ch s /\
  min (animate s) = min s /\ max (animate s) = max s /\
  pointerId (animate s) = pointerId s /\ active (animate s) = active s /\
  lastY (animate s) = lastY s /\ lastMoveTime (animate s) = lastMoveTime s /\
  moveHistory (animate s) = moveHistory s.
Proof.
  unfold animate. destruct (state s); cbv zeta;
    try (repeat split; reflexivity).
  - destruct (Math.abs _ <? STOP_VEL); destruct (out_of_bounds _);
      repeat split; reflexivity.
  - destruct (Math.abs _ <? 0.5); repeat split; reflexivity.
Qed.

(** A frame neither starts nor ends a drag. *)
Lemma animate_drag_iff (s : CustomScroll) :
  state (animate s) = Drag <-> state s = Drag.
Proof.
  destruct (state s) eqn:Hst.
  - rewrite animate_rest by auto. rewrite Hst. reflexivity.
  - rewrite (animate_decel s Hst). cbv zeta.
    destruct (Math.abs _ <? STOP_VEL); destruct (_ || _);
      cbn [state set_state set_springTarget set_vel set_pos];
      rewrite ?Hst; split; intros H; discriminate H.
  - rewrite (animate_spring s Hst). cbv zeta.
    destruct (Math.abs _ <? 0.5);
      cbn [state set_state set_vel set_pos];
      rewrite ?Hst; split; intros H; discriminate H.
  - rewrite animate_rest by auto. rewrite Hst. reflexivity.
Qed.

Lemma on_pointerup_not_drag (s : CustomScroll) : state (on_pointerup s) <> Drag.
Proof.
  rewrite on_pointerup_unfold. cbv zeta.
  destruct (out_of_bounds s); [|destruct (Math.abs _ >? STOP_VEL)];
    cbn [state set_state]; discriminate.
Qed.

Lemma on_pointerup_session (s : CustomScroll) :
  pointerId (on_pointerup s) = None /\ active (on_pointerup s) = false /\
  moveHistory (on_pointerup s) = moveHistory s /\
  pos (on_pointerup s) = pos s /\
  min (on_pointerup s) = min s /\ max (on_pointerup s) = max s.
Proof.
  rewrite on_pointerup_unfold. cbv zeta.
  destruct (out_of_bounds s); [|destruct (Math.abs _ >? STOP_VEL)];
    destruct (pointerId s) eqn:E;
    cbn [pointerId active moveHistory pos min max
         set_state set_vel set_springTarget set_active set_pointerId];
    rewrite ?E; repeat split; reflexivity.
Qed.

(** What a move in [Drag] records. *)
Lemma on_pointermove_history (y now : float) (s : CustomScroll) :
  state s = Drag ->
  moveHistory (on_pointermove y now s)
  = push_capped (Move (y - lastY s) (now - lastMoveTime s)) (moveHistory s) /\
  lastMoveTime (on_pointermove y now s) = now /\
  pointerId (on_pointermove y now s) = pointerId s /\
  active (on_pointermove y now s) = active s.
Proof.
  intros Hst. unfold on_pointermove. rewrite Hst. cbn [scroll_state_eqb negb].
  cbv zeta.
  replace (out_of_bounds (set_lastY y s)) with (out_of_bounds s) by reflexivity.
  destruct (out_of_bounds s); repeat split; reflexivity.
Qed.

Lemma lastn_short {A : Type} (n : nat) (l : list A) :
  (length l <= n)%nat -> lastn n l = l.
Proof.
  intros H. unfold lastn. replace (length l - n)%nat with 0%nat by lia.
  reflexivity.
Qed.

Lemma lastn_length {A : Type} (n : nat) (l : list A) :
  (length (lastn n l) <= n)%nat.
Proof. unfold lastn. rewrite length_skipn. lia. Qed.

(** Trimming to the last [n] before appending changes nothing of the last
    [n] after it. *)
Lemma lastn_app_lastn {A : Type} (n : nat) (l l2 : list A) :
  lastn n (lastn n l ++ l2) = lastn n (l ++ l2).
Proof.
  destruct (Nat.le_gt_cases (length l) n) as [H|H].
  - rewrite (lastn_short n l H). reflexivity.
  - unfold lastn. rewrite !length_app, length_skipn.
    set (k := (length l - n)%nat).
    replace (length l - k + length l2 - n)%nat with (length l2) by lia.
    replace (length l + length l2 - n)%nat with (length l2 + k)%nat by lia.
    rewrite <- skipn_skipn, (skipn_app k l l2).
    replace (k - length l)%nat with 0%nat by lia. reflexivity.
Qed.

(** [push] followed by the capped [shift] keeps the last five. *)
Lemma push_capped_lastn (m : move) (h : list move) :
  (length h <= 5)%nat -> push_capped m h = lastn 5 (h ++ [m]).
Proof.
  intros H. unfold push_capped, lastn. rewrite length_app. cbn [length].
  destruct (Nat.ltb_spec 5 (length h + 1)) as [L|L].
  - replace (length h + 1 - 5)%nat with 1%nat by lia.
    destruct (h ++ [m]); reflexivity.
  - replace (length h + 1 - 5)%nat with 0%nat by lia. reflexivity.
Qed.

Lemma session_invariant_dispatch (s : CustomScroll) (e : event) :
  session_invariant s -> session_invariant (dispatch s e).
Proof.
  intros (Hid & Hac & Hlen). destruct e as [id y now|y now| | |]; cbn [dispatch].
  - unfold session_invariant, on_pointerdown. cbn.
    repeat split; intros; try congruence; lia.
  - destruct (state s) eqn:Hst;
      try (rewrite on_pointermove_not_drag by congruence;
           unfold session_invariant; rewrite Hst; auto).
    destruct (on_pointermove_drag y now s Hst) as (Hst' & _).
    destruct (on_pointermove_history y now s Hst) as (Hh & _ & Hp & Ha).
    unfold session_invariant. rewrite Hst', Hh, Hp, Ha.
    repeat split; try tauto.
    rewrite (push_capped_lastn _ _ Hlen). apply lastn_length.
  - pose proof (on_pointerup_not_drag s) as Hnd.
    destruct (on_pointerup_session s) as (Hp & Ha & Hh & _).
    unfold session_invariant. rewrite Hp, Ha, Hh.
    repeat split; intros; try congruence; try contradiction.
  - exact (conj Hid (conj Hac Hlen)).
  - destruct (animate_keeps s) as (_ & _ & _ & _ & Hp & Ha & _ & _ & Hh).
    unfold session_invariant. rewrite Hp, Ha, Hh, animate_drag_iff.
    exact (conj Hid (conj Hac Hlen)).
Qed.

Lemma session_invariant_run (es : list event) :
  forall s, session_invariant s -> session_invariant (run es s).
Proof.
  induction es as [|e es IH]; intros s HI.
  - exact HI.
  - apply IH, session_invariant_dispatch, HI.
Qed.

Lemma session_invariant_constructor (clientHeight scrollHeight : float) :
  session_invariant (constructor clientHeight scrollHeight).
Proof.
  unfold session_invariant. cbn.
  repeat split; intros; try congruence; try discriminate; lia.
Qed.

End Session.

(** X1. In every state an instance can reach, [moveHistory] holds at most
    five entries. *)
Theorem history_length_bounded
  (clientHeight scrollHeight : float) (es : list event) :
  (length (moveHistory (run es (constructor clientHeight scrollHeight))) <= 5)%nat.
Proof.
  apply (session_invariant_run es), session_invariant_constructor.
Qed.

(** X2. In every state an instance can reach, the state is [Drag] exactly
    when a pointer is captured ([pointerId] is not [null]), and exactly when
    the viewport carries the class "active". *)
Theorem drag_iff_captured
  (clientHeight scrollHeight : float) (es : list event) :
  let s := run es (constructor clientHeight scrollHeight) in
  (state s = Drag <-> pointerId s <> None) /\
  (state s = Drag <-> active s = true).
Proof.
  intros s.
  destruct (session_invariant_run es _
              (session_invariant_constructor clientHeight scrollHeight))
    as (Hid & Hac & _).
  exact (conj Hid Hac).
Qed.

Section History.

Lemma drag_history (ms : list (float * float)) :
  forall s : CustomScroll,
    state s = Drag -> (length (moveHistory s) <= 5)%nat ->
    state (drag ms s) = Drag /\
    moveHistory (drag ms s)
    = lastn 5 (moveHistory s ++ entries (lastY s) (lastMoveTime s) ms).
Proof.
  induction ms as [|m ms IH]; intros s Hst Hlen.
  - cbn [entries]. rewrite app_nil_r, (lastn_short 5 _ Hlen).
    split; [exact Hst | reflexivity].
  - destruct (on_pointermove_drag (fst m) (snd m) s Hst) as (Hst' & Hy & _).
    destruct (on_pointermove_history (fst m) (snd m) s Hst) as (Hh & Ht & _).
    rewrite (push_capped_lastn _ _ Hlen) in Hh.
    assert (Hlen' : (length (moveHistory (on_pointermove (fst m) (snd m) s)) <= 5)%nat)
      by (rewrite Hh; apply lastn_length).
    rewrite drag_cons.
    destruct (IH _ Hst' Hlen') as (Hd & Hm).
    split; [exact Hd|].
    rewrite Hm, Hh, Hy, Ht, lastn_app_lastn, <- app_assoc. reflexivity.
Qed.

Lemma entries_length (ms : list (float * float)) :
  forall y t : float, length (entries y t ms) = length ms.
Proof.
  induction ms as [|m ms IH]; intros y t.
  - reflexivity.
  - cbn [entries length]. rewrite IH. reflexivity.
Qed.

End History.

(** X3. The history is a rolling window over the drag: after a pointer down
    at coordinate [y] and time [t] followed by any moves, the instance is
    still in [Drag] and [moveHistory] holds exactly the last five moves, in
    order, each as its displacement from the move before and the time
    elapsed since it (all of them when there are at most five). *)
Theorem history_is_last_five
  (s : CustomScroll) (id : Z) (y t : float) (ms : list (float * float)) :
  let s' := drag ms (on_pointerdown id y t s) in
  state s' = Drag /\
  moveHistory s' = lastn 5 (entries y t ms) /\
  ((length ms <= 5)%nat -> moveHistory s' = entries y t ms).
Proof.
  intros s'. subst s'.
  destruct (drag_history ms (on_pointerdown id y t s) eq_refl) as (Hst & Hm).
  { cbn. lia. }
  cbn [app moveHistory lastY lastMoveTime on_pointerdown
       set_active set_moveHistory set_lastMoveTime set_lastY] in Hm.
  split; [exact Hst|]. split; [exact Hm|].
  intros Hlen. rewrite Hm. apply lastn_short.
  rewrite entries_length. exact Hlen.
Qed.

(** A drag of seven moves, one unit each 16 ms apart: the history holds
    the last five. *)
Lemma history_is_last_five_witness :
  let ms := [(1, 16); (2, 32); (3, 48); (4, 64); (5, 80); (6, 96); (7, 112)] in
  let s := drag ms (on_pointerdown 1 0 0 (constructor 500 1500)) in
  moveHistory s = [Move 1 16; Move 1 16; Move 1 16; Move 1 16; Move 1 16]
  /\ moveHistory (drag [(1, 16); (3, 40)] (on_pointerdown 1 0 0 (constructor 500 1500)))
     = [Move 1 16; Move 2 24].
Proof.
  intros ms s.
  pose proof (history_is_last_five (constructor 500 1500) 1 0 0 ms) as (_ & H5 & _).
  pose proof (history_is_last_five (constructor 500 1500) 1 0 0 [(1, 16); (3, 40)])
    as (_ & _ & H2).
  exact (conj (eq_trans H5 eq_refl) (eq_trans (H2 ltac:(cbn; lia)) eq_refl)).
Defined.

(** * Bounds and targets *)

(** X4. The geometry is read once: in every state an instance can reach,
    [vh] and [ch] are the heights given to the constructor, [min] is [0],
    [max] is [Math.max(ch - vh, 0)] and so never negative, and
    [springTarget] is one of the two bounds. *)
Theorem bounds_fixed
  (clientHeight scrollHeight : float) (es : list event) :
  let s := run es (constructor clientHeight scrollHeight) in
  vh s = clientHeight /\ ch s = scrollHeight /\
  min s = 0 /\ max s = Math.max (scrollHeight - clientHeight) 0 /\
  (max s <? min s) = false /\
  (springTarget s = 0 \/ springTarget s = max s).
Proof.
  intros s.
  destruct (invariant_reachable clientHeight scrollHeight es)
    as (Hvh & Hch & Hmin & Hmax & Htg & _).
  fold s in Hvh, Hch, Hmin, Hmax, Htg.
  repeat split; try assumption.
  - rewrite Hmin, Hmax. apply max_not_below_r.
  - rewrite <- Hmin. exact Htg.
Qed.

(** X5. In every state an instance can reach, [Decel] is held with the
    position within the bounds: a coast never continues outside them. *)
Theorem decel_within_bounds
  (clientHeight scrollHeight : float) (es : list event) :
  let s := run es (constructor clientHeight scrollHeight) in
  state s = Decel ->
  out_of_bounds s = false /\
  (is_nan (scrollHeight - clientHeight) = false ->
   is_nan (pos s) = false -> within_bounds s = true).
Proof.
  intros s Hst.
  destruct (invariant_reachable clientHeight scrollHeight es)
    as (_ & _ & Hmin & Hmax & _ & Hin & _).
  fold s in Hmin, Hmax, Hin.
  pose proof (Hin (or_intror Hst)) as Hoob.
  split; [exact Hoob|].
  intros Hgeo Hpos. unfold out_of_bounds in Hoob.
  apply orb_false_iff in Hoob. destruct Hoob as [Hlo Hhi].
  unfold within_bounds. apply andb_true_iff. split.
  - apply ltb_false_leb; try assumption. rewrite Hmin. reflexivity.
  - apply ltb_false_leb; try assumption.
    rewrite Hmax. apply max_is_nan; [exact Hgeo | reflexivity].
Qed.

(** A release at velocity [2000] from position [30], three frames into the
    coast. *)
Lemma decel_within_bounds_witness :
  let s := run [pointerdown 1 0 0; pointermove 30 10; pointerup;
                frame; frame; frame] (constructor 500 1500) in
  state s = Decel /\ within_bounds s = true.
Proof.
  intros s.
  assert (Hst : state s = Decel) by (vm_compute; reflexivity).
  refine (conj Hst (proj2 (decel_within_bounds 500 1500 _ Hst) _ _));
    vm_compute; reflexivity.
Defined.

Section ReleaseVelocity.

(** A clamped value lies between the two limits. *)
Lemma clamp_range (v lo hi : float) :
  (lo <? hi) = true ->
  (clamp v lo hi <? lo) = false /\ (hi <? clamp v lo hi) = false.
Proof.
  intros Hlh. unfold clamp.
  destruct (v <? lo) eqn:Hvl.
  - split; [apply ltb_irrefl | exact (ltb_asym _ _ Hlh)].
  - destruct (hi <? v) eqn:Hhv.
    + split; [exact (ltb_asym _ _ Hlh) | apply ltb_irrefl].
    + split; assumption.
Qed.

Lemma clamp_not_nan (v lo hi : float) :
  is_nan v = false -> is_nan lo = false -> is_nan hi = false ->
  is_nan (clamp v lo hi) = false.
Proof.
  intros Hv Hlo Hhi. unfold clamp.
  destruct (v <? lo); [exact Hlo|]. destruct (hi <? v); assumption.
Qed.

End ReleaseVelocity.

(** X6. Whenever a pointer up starts a coast, the velocity it starts with
    is a number of magnitude above [STOP_VEL = 5] and within
    [[-MAX_VEL, MAX_VEL] = [-2000, 2000]]. *)
Theorem release_velocity_range (s : CustomScroll) :
  state (on_pointerup s) = Decel ->
  let w := vel (on_pointerup s) in
  is_nan w = false /\
  (5 <? Math.abs w) = true /\
  (-2000 <=? w) = true /\ (w <=? 2000) = true.
Proof.
  rewrite on_pointerup_unfold. cbv zeta.
  destruct (out_of_bounds s);
    [cbn [state set_state]; intros H; discriminate H|].
  destruct (Math.abs (estimateVelocity s) >? STOP_VEL) eqn:Hv;
    [|cbn [state set_state]; intros H; discriminate H].
  intros _. cbn [vel set_state set_vel].
  rewrite (release_velocity_clamped _ Hv).
  set (v := estimateVelocity s) in *.
  assert (Hn : is_nan v = false)
    by (apply abs_not_nan; exact (proj2 (ltb_not_nan _ _ Hv))).
  assert (Hc : is_nan (clamp v (-2000) 2000) = false)
    by (apply clamp_not_nan; [exact Hn | reflexivity | reflexivity]).
  destruct (clamp_range v (-2000) 2000 eq_refl) as (Hlo & Hhi).
  split; [exact Hc|]. split; [|split].
  - unfold clamp. destruct (v <? -2000); [reflexivity|].
    destruct (2000 <? v); [reflexivity | exact Hv].
  - apply ltb_false_leb; [exact Hc | reflexivity | exact Hlo].
  - apply ltb_false_leb; [reflexivity | exact Hc | exact Hhi].
Qed.

(** A fling: 300 units in 16 ms, an estimate of [18750], released in
    bounds at position [300]; the coast starts at [2000]. *)
Lemma release_velocity_range_witness :
  let f := run [pointerdown 1 0 0; pointermove 300 16] (constructor 500 1500) in
  estimateVelocity f = 18750 /\
  state (on_pointerup f) = Decel /\ (vel (on_pointerup f) <=? 2000) = true.
Proof.
  intros f.
  assert (Hst : state (on_pointerup f) = Decel) by (vm_compute; reflexivity).
  destruct (release_velocity_range f Hst) as (_ & _ & _ & Hhi).
  exact (conj eq_refl (conj Hst Hhi)).
Defined.

(** * Press, release and stray events *)

Section Press.

Lemma ticks_fixed (s : CustomScroll) (n : nat) :
  state s = Drag \/ state s = Idle -> ticks n s = s.
Proof.
  intros Hst. unfold ticks. induction n as [|n IH].
  - reflexivity.
  - cbn [repeat run fold_left dispatch].
    rewrite (animate_rest s Hst). exact IH.
Qed.

Lemma run_app (es1 es2 : list event) (s : CustomScroll) :
  run (es1 ++ es2) s = run es2 (run es1 s).
Proof. unfold run. apply fold_left_app. Qed.

End Press.

(** X7. A pointer down pre-empts whatever motion is in progress: from any
    state it leaves the position where it is, zeroes the velocity, empties
    the history and enters [Drag], and no number of frames that follow
    changes anything until the next pointer event. *)
Theorem press_freezes (s : CustomScroll) (id : Z) (y t : float) (n : nat) :
  let s' := on_pointerdown id y t s in
  state s' = Drag /\ pos s' = pos s /\ vel s' = 0 /\ moveHistory s' = [] /\
  ticks n s' = s'.
Proof.
  intros s'. subst s'.
  repeat split.
  apply ticks_fixed. left. reflexivity.
Qed.

(** X8. A tap, a pointer down released without any move in between, never
    starts a coast: the estimate over the empty history is [0], so the
    instance comes to rest ([Idle], velocity [0]) at its position when that
    is in bounds, and springs back to the violated bound otherwise.  In
    particular a tap stops a coast. *)
Theorem tap_stops (s : CustomScroll) (id : Z) (y t : float) :
  let s' := on_pointerup (on_pointerdown id y t s) in
  pos s' = pos s /\ vel s' = 0 /\ state s' <> Decel /\
  (out_of_bounds s = false -> state s' = Idle) /\
  (out_of_bounds s = true ->
     state s' = Spring /\ springTarget s' = violated_bound s).
Proof.
  intros s'. subst s'. rewrite on_pointerup_unfold. cbv zeta.
  replace (out_of_bounds (on_pointerdown id y t s)) with (out_of_bounds s)
    by reflexivity.
  replace (violated_bound (on_pointerdown id y t s)) with (violated_bound s)
    by reflexivity.
  replace (Math.abs (estimateVelocity (on_pointerdown id y t s)) >? STOP_VEL)
    with false by reflexivity.
  destruct (out_of_bounds s); cbn -[violated_bound];
    repeat split; intros; congruence.
Qed.

(** A coast at velocity [2000], tapped after three frames: at rest. *)
Lemma tap_stops_witness :
  let c := run [pointerdown 1 0 0; pointermove 30 10; pointerup;
                frame; frame; frame] (constructor 500 1500) in
  state c = Decel /\ state (on_pointerup (on_pointerdown 2 400 900 c)) = Idle.
Proof.
  intros c.
  destruct (tap_stops c 2 400 900) as (_ & _ & _ & Hin & _).
  assert (Hoob : out_of_bounds c = false) by (vm_compute; reflexivity).
  assert (Hst : state c = Decel) by (vm_compute; reflexivity).
  exact (conj Hst (Hin Hoob)).
Defined.

Section Stray.

Lemma constructor_fixed (clientHeight scrollHeight : float) (e : event) :
  is_pointerdown e = false ->
  dispatch (constructor clientHeight scrollHeight) e
  = constructor clientHeight scrollHeight.
Proof.
  intros He. destruct e as [id y now|y now| | |]; try discriminate He;
    cbn [dispatch]; try reflexivity.
  rewrite on_pointerup_unfold. cbv zeta.
  assert (Hoob : out_of_bounds (constructor clientHeight scrollHeight) = false).
  { unfold out_of_bounds. cbn [pos min max constructor animate fields state].
    change (0 <? 0) with false. apply max_not_below_r. }
  rewrite Hoob. reflexivity.
Qed.

Lemma not_drag_dispatch (s : CustomScroll) (e : event) :
  state s <> Drag -> is_pointerdown e = false -> state (dispatch s e) <> Drag.
Proof.
  intros Hst He. destruct e as [id y now|y now| | |]; try discriminate He;
    cbn [dispatch].
  - rewrite on_pointermove_not_drag by exact Hst. exact Hst.
  - apply on_pointerup_not_drag.
  - exact Hst.
  - rewrite animate_drag_iff. exact Hst.
Qed.

End Stray.

(** X9. Without a pointer down nothing ever happens: whatever sequence of
    moves, pointer ups, cancellations and frames a freshly constructed
    instance receives, it stays exactly as constructed. *)
Theorem idle_until_pressed
  (clientHeight scrollHeight : float) (es : list event) :
  forallb (fun e => negb (is_pointerdown e)) es = true ->
  run es (constructor clientHeight scrollHeight)
  = constructor clientHeight scrollHeight.
Proof.
  induction es as [|e es IH]; intros H.
  - reflexivity.
  - cbn [forallb] in H. apply andb_prop in H. destruct H as [He Hes].
    apply negb_true_iff in He.
    unfold run. cbn [fold_left]. rewrite (constructor_fixed _ _ e He).
    exact (IH Hes).
Qed.

(** Moves, a stray pointer up, a cancellation and frames on a new
    instance. *)
Lemma idle_until_pressed_witness :
  run [pointermove 40 5; frame; pointerup; pointermove 90 20; pointercancel; frame]
      (constructor 500 1500)
  = constructor 500 1500.
Proof.
  exact (idle_until_pressed 500 1500
           [pointermove 40 5; frame; pointerup; pointermove 90 20;
            pointercancel; frame] eq_refl).
Defined.

(** X10. The pointer-up listener is idempotent: a second pointer up right
    after the first changes nothing. *)
Theorem pointerup_idempotent (s : CustomScroll) :
  on_pointerup (on_pointerup s) = on_pointerup s.
Proof.
  rewrite (on_pointerup_unfold (on_pointerup s)). cbv zeta.
  assert (Hoob : out_of_bounds (on_pointerup s) = out_of_bounds s).
  { destruct (on_pointerup_session s) as (_ & _ & _ & Hp & Hmin & Hmax).
    unfold out_of_bounds. rewrite Hp, Hmin, Hmax. reflexivity. }
  assert (Hvb : violated_bound (on_pointerup s) = violated_bound s).
  { destruct (on_pointerup_session s) as (_ & _ & _ & Hp & Hmin & Hmax).
    unfold violated_bound. rewrite Hp, Hmin, Hmax. reflexivity. }
  assert (Hev : estimateVelocity (on_pointerup s) = estimateVelocity s).
  { destruct (on_pointerup_session s) as (_ & _ & Hh & _).
    unfold estimateVelocity. rewrite Hh. reflexivity. }
  rewrite Hoob, Hvb, Hev, on_pointerup_unfold. cbv zeta.
  destruct (out_of_bounds s); [|destruct (Math.abs _ >? STOP_VEL)];
    destruct s as [vh0 ch0 mn mx p v tg st [id|] ly lt mh ac]; reflexivity.
Qed.

(** X11. Pointer moves count only between a pointer down and the next
    pointer up: in any sequence of events without a pointer down, received
    outside [Drag], every move can be deleted without changing the
    outcome. *)
Theorem moves_ignored_outside_drag (es : list event) :
  forall s : CustomScroll,
    state s <> Drag ->
    forallb (fun e => negb (is_pointerdown e)) es = true ->
    run es s = run (filter (fun e => negb (is_pointermove e)) es) s.
Proof.
  induction es as [|e es IH]; intros s Hst H.
  - reflexivity.
  - cbn [forallb] in H. apply andb_prop in H. destruct H as [He Hes].
    apply negb_true_iff in He.
    pose proof (not_drag_dispatch s e Hst He) as Hst'.
    cbn [filter]. destruct (is_pointermove e) eqn:Hm; cbn [negb].
    + destruct e; try discriminate Hm.
      unfold run at 1. cbn [fold_left dispatch].
      rewrite on_pointermove_not_drag by exact Hst.
      exact (IH s Hst Hes).
    + unfold run. cbn [fold_left]. exact (IH _ Hst' Hes).
Qed.

(** A coast with the pointer moving over the viewport: the moves make no
    difference. *)
Lemma moves_ignored_outside_drag_witness :
  let c := run [pointerdown 1 0 0; pointermove 30 10; pointerup]
               (constructor 500 1500) in
  run [frame; pointermove 700 40; frame; pointermove 20 60; frame] c
  = run [frame; frame; frame] c.
Proof.
  intros c.
  assert (Hst : state c <> Drag) by (vm_compute; intros E; discriminate E).
  exact (moves_ignored_outside_drag
           [frame; pointermove 700 40; frame; pointermove 20 60; frame]
           c Hst eq_refl).
Defined.

(** * Content that fits *)

Section Fits.

Lemma leb_cases (x y : float) :
  (x <=? y) = true ->
  is_nan x = false /\ ((x <? y) = true \/ (x =? y) = true).
Proof.
  rewrite leb_spec, ltb_spec, FloatAxioms.eqb_spec, is_nan_Prim2SF.
  unfold SFleb, SFltb, SFeqb. intros H. split.
  - intros E. rewrite E in H. discriminate H.
  - destruct (SFcompare (Prim2SF x) (Prim2SF y)) as [[ | | ]|];
      try discriminate H; auto.
Qed.

(** A range that is zero or negative gives [max == 0]. *)
Lemma max_zero_when_fits (d : float) :
  (d <=? 0) = true -> (Math.max d 0 =? 0) = true.
Proof.
  intros H. destruct (leb_cases d 0 H) as (Hn & [Hlt | Heq]).
  - unfold Math.max. rewrite Hn, Hlt. reflexivity.
  - destruct (eqb_not_ltb d 0 Heq) as (H1 & H2).
    unfold Math.max. rewrite Hn, H1, H2. cbn [orb is_nan].
    change (is_nan 0) with false. cbn [orb].
    unfold is_zero. change zero with 0. rewrite Heq.
    destruct (get_sign d); [reflexivity | exact Heq].
Qed.

End Fits.

(** X12. Content that fits within the viewport cannot be scrolled: when
    [scrollHeight - clientHeight <= 0], in every state the instance can
    reach [max] is zero and the thumb's [scrollRatio] is [0], and whenever
    the instance is at rest or coasting, its position (being a number) is
    zero. *)
Theorem fits_no_scroll
  (clientHeight scrollHeight : float) (es : list event) :
  (scrollHeight - clientHeight <=? 0) = true ->
  let s := run es (constructor clientHeight scrollHeight) in
  (max s =? 0) = true /\ scrollRatio s = 0 /\
  (state s = Idle \/ state s = Decel ->
   is_nan (pos s) = false -> (pos s =? 0) = true).
Proof.
  intros Hfit s.
  destruct (invariant_reachable clientHeight scrollHeight es)
    as (_ & _ & Hmin & Hmax & _ & Hin & _).
  fold s in Hmin, Hmax, Hin.
  assert (Hz : (max s =? 0) = true)
    by (rewrite Hmax; apply max_zero_when_fits, Hfit).
  split; [exact Hz|]. split.
  - unfold scrollRatio. rewrite (proj2 (eqb_not_ltb _ _ Hz)). reflexivity.
  - intros Hst Hpos. specialize (Hin Hst). unfold out_of_bounds in Hin.
    apply orb_false_iff in Hin. destruct Hin as [Hlo Hhi].
    rewrite Hmin in Hlo.
    rewrite (is_zero_ltb_l (max s) (pos s) Hz) in Hhi.
    destruct (pos s =? 0) eqn:E; [reflexivity|].
    rewrite (trichotomy (pos s) 0 Hpos eq_refl Hlo E) in Hhi.
    discriminate Hhi.
Qed.

(** Content of height 300 in a viewport of 500, dragged down by 10 and
    released: 20 frames later it is back at rest at position [0]. *)
Lemma fits_no_scroll_witness :
  let s := run ([pointerdown 1 0 0; pointermove 10 16; pointerup]
                ++ repeat frame 20) (constructor 500 300) in
  state s = Idle /\ (pos s =? 0) = true /\ scrollRatio s = 0.
Proof.
  intros s.
  assert (Hfit : (300 - 500 <=? 0) = true) by (vm_compute; reflexivity).
  assert (Hst : state s = Idle) by (vm_compute; reflexivity).
  assert (Hn : is_nan (pos s) = false) by (vm_compute; reflexivity).
  destruct (fits_no_scroll 500 300
              ([pointerdown 1 0 0; pointermove 10 16; pointerup]
               ++ repeat frame 20) Hfit) as (_ & Hr & Hp).
  exact (conj Hst (conj (Hp (or_introl Hst) Hn) Hr)).
Defined.

(** * Frames *)

(** X13. In every state an instance can reach, a spring that comes to rest
    leaves the position exactly on a bound: [0] or [max]. *)
Theorem spring_lands_on_bound
  (clientHeight scrollHeight : float) (es : list event) :
  let s := run es (constructor clientHeight scrollHeight) in
  state s = Spring -> state (animate s) = Idle ->
  pos (animate s) = 0 \/ pos (animate s) = max s.
Proof.
  intros s Hst.
  destruct (invariant_reachable clientHeight scrollHeight es)
    as (_ & _ & Hmin & _ & Htg & _).
  fold s in Hmin, Htg. rewrite Hmin in Htg.
  rewrite (animate_spring s Hst). cbv zeta.
  destruct (Math.abs (springTarget s - pos s) <? 0.5);
    cbn [state pos set_state set_pos set_vel].
  - intros _. exact Htg.
  - rewrite Hst. intros H. discriminate H.
Qed.

(** A drag to [-2] released: the first frame of the spring is not yet within
    [0.5] of the bound, a later one snaps to [0]. *)
Lemma spring_lands_on_bound_witness :
  let es := [pointerdown 1 100 0; pointermove 98 16; pointerup]
            ++ repeat frame 9 in
  let s := run es (constructor 500 1500) in
  state s = Spring /\ pos (animate s) = 0.
Proof.
  intros es s.
  assert (Hst : state s = Spring) by (vm_compute; reflexivity).
  assert (Hidle : state (animate s) = Idle) by (vm_compute; reflexivity).
  destruct (spring_lands_on_bound 500 1500 es Hst Hidle) as [H|H].
  - exact (conj Hst H).
  - exfalso. vm_compute in H.
    assert (E : (0 =? 1000) = true) by (rewrite H; reflexivity).
    vm_compute in E. discriminate E.
Defined.

Section Ticks.

Lemma ticks_S (n : nat) (s : CustomScroll) :
  ticks (S n) s = ticks n (animate s).
Proof. reflexivity. Qed.

End Ticks.

(** X14. Frames touch the motion only: over any number of frames the
    geometry, the bounds, the captured pointer, the class "active", the drag
    reference and the history stay as they are, and the instance is in
    [Drag] afterwards exactly if it was before. *)
Theorem frames_keep_session (n : nat) :
  forall s : CustomScroll,
    let s' := ticks n s in
    vh s' = vh s /\ ch s' = ch s /\ min s' = min s /\ max s' = max s /\
    pointerId s' = pointerId s /\ active s' = active s /\
    lastY s' = lastY s /\ lastMoveTime s' = lastMoveTime s /\
    moveHistory s' = moveHistory s /\
    (state s' = Drag <-> state s = Drag).
Proof.
  induction n as [|n IH]; intros s s'; subst s'.
  - repeat split; auto.
  - rewrite ticks_S.
    destruct (IH (animate s)) as (H1 & H2 & H3 & H4 & H5 & H6 & H7 & H8 & H9 & H10).
    destruct (animate_keeps s) as (K1 & K2 & K3 & K4 & K5 & K6 & K7 & K8 & K9).
    rewrite H1, H2, H3, H4, H5, H6, H7, H8, H9, H10, animate_drag_iff.
    repeat split; auto.
Qed.

(** X15. A spring ends at rest only: from [Spring], after any number of
    frames the state is [Spring] or [Idle], never [Decel], and
    [springTarget] is unchanged; and once [Idle], frames change nothing. *)
Theorem spring_ends_at_rest (n : nat) :
  forall s : CustomScroll,
    state s = Spring ->
    (state (ticks n s) = Spring \/ state (ticks n s) = Idle) /\
    springTarget (ticks n s) = springTarget s /\
    (state (ticks n s) = Idle -> forall k, ticks k (ticks n s) = ticks n s).
Proof.
  induction n as [|n IH]; intros s Hst.
  - split; [left; exact Hst|]. split; [reflexivity|].
    intros H k. apply ticks_fixed. right. exact H.
  - rewrite ticks_S. pose proof (animate_spring s Hst) as Ha. cbv zeta in Ha.
    destruct (Math.abs (springTarget s - pos s) <? 0.5).
    + assert (Hi : state (animate s) = Idle) by (rewrite Ha; reflexivity).
      assert (Ht : springTarget (animate s) = springTarget s)
        by (rewrite Ha; reflexivity).
      rewrite (ticks_fixed (animate s) n (or_intror Hi)).
      split; [right; exact Hi|]. split; [exact Ht|].
      intros _ k. apply ticks_fixed. right. exact Hi.
    + assert (Hs : state (animate s) = Spring)
        by (rewrite Ha; cbn [state set_pos set_vel]; exact Hst).
      assert (Ht : springTarget (animate s) = springTarget s)
        by (rewrite Ha; reflexivity).
      destruct (IH (animate s) Hs) as (H1 & H2 & H3).
      split; [exact H1|]. split; [rewrite H2; exact Ht | exact H3].
Qed.

(** The spring from [-50] toward [0], 40 frames on: at rest. *)
Lemma spring_ends_at_rest_witness :
  let s := run [pointerdown 1 100 0; pointermove 50 16; pointerup]
               (constructor 500 1500) in
  state s = Spring /\ springTarget (ticks 40 s) = 0 /\
  ticks 7 (ticks 40 s) = ticks 40 s.
Proof.
  intros s.
  assert (Hst : state s = Spring) by (vm_compute; reflexivity).
  destruct (spring_ends_at_rest 40 s Hst) as (_ & Ht & Hfix).
  assert (Hi : state (ticks 40 s) = Idle) by (vm_compute; reflexivity).
  exact (conj Hst (conj (eq_trans Ht eq_refl) (Hfix Hi 7%nat))).
Defined.

Section ZeroTime.

Lemma sum_zeros (l : list float) :
  (forall x, In x l -> x = 0) -> fold_left PrimFloat.add l 0 = 0.
Proof.
  induction l as [|x l IH]; intros H.
  - reflexivity.
  - cbn [fold_left]. rewrite (H x (or_introl eq_refl)).
    change (0 + 0) with 0. apply IH. intros y Hy. apply H. right. exact Hy.
Qed.

End ZeroTime.

(** X16. The estimate never divides by a zero total: when no time elapsed
    over the recorded moves (every [dt] is [0]) [estimateVelocity] returns
    [0], whatever the displacements, and a release in bounds goes to
    [Idle]. *)
Theorem no_time_no_velocity (s : CustomScroll) :
  (forall m, In m (moveHistory s) -> dt m = 0) ->
  estimateVelocity s = 0 /\
  (out_of_bounds s = false -> state (on_pointerup s) = Idle).
Proof.
  intros H.
  assert (He : estimateVelocity s = 0).
  { unfold estimateVelocity. rewrite totals_sums. cbn [fst snd].
    unfold sum_elapsedTime, sum. rewrite sum_zeros; [reflexivity|].
    intros x Hx. apply in_map_iff in Hx. destruct Hx as (m & <- & Hm).
    exact (H m Hm). }
  split; [exact He|].
  intros Hoob. rewrite on_pointerup_unfold, Hoob, He. reflexivity.
Qed.

(** Two moves delivered at the time of the pointer down. *)
Lemma no_time_no_velocity_witness :
  let s := run [pointerdown 1 0 250; pointermove 40 250; pointermove 90 250]
               (constructor 500 1500) in
  pos s = 90 /\ estimateVelocity s = 0 /\ state (on_pointerup s) = Idle.
Proof.
  intros s.
  assert (Hh : moveHistory s = [Move 40 0; Move 50 0])
    by (vm_compute; reflexivity).
  assert (Hp : pos s = 90) by (vm_compute; reflexivity).
  assert (Hoob : out_of_bounds s = false) by (vm_compute; reflexivity).
  assert (H : forall m, In m (moveHistory s) -> dt m = 0).
  { intros m Hm. rewrite Hh in Hm.
    destruct Hm as [<- | [<- | []]]; reflexivity. }
  destruct (no_time_no_velocity s H) as (He & Hi).
  exact (conj Hp (conj He (Hi Hoob))).
Defined.

(** * The thumb at the top *)

Section Top.

(** Zero divided by a positive number is [+0]. *)
Lemma zero_div_positive (m : float) : (0 <? m) = true -> 0 / m = 0.
Proof.
  intros H. apply Prim2SF_inj. rewrite div_spec.
  rewrite ltb_spec in H. unfold SFltb in H.
  change (Prim2SF 0) with (S754_zero false) in *.
  unfold SF64div, SFdiv.
  destruct (Prim2SF m) as [sm|sm| |sm mm em]; cbn in H;
    try discriminate H; destruct sm; try discriminate H; reflexivity.
Qed.

End Top.

(** X17. With the content at the top ([pos] is [0]) the thumb's
    [scrollRatio] is [0] for every geometry, scrollable or not, so the thumb
    is translated by [maxThumbY * 0]. *)
Theorem thumb_at_top (s : CustomScroll) :
  pos s = 0 ->
  scrollRatio s = 0 /\ translateY (updateThumb s) = maxThumbY s * 0.
Proof.
  intros Hp.
  assert (Hr : scrollRatio s = 0).
  { unfold scrollRatio. rewrite Hp.
    destruct (0 <? max s) eqn:Hm; [apply zero_div_positive, Hm | reflexivity]. }
  split; [exact Hr|].
  unfold updateThumb. cbn [translateY]. rewrite Hr. reflexivity.
Qed.

(** A new instance over content of height 1500 in a viewport of 500: thumb
    of height [500 * (500 / 1500)] at offset [0]. *)
Lemma thumb_at_top_witness :
  let s := constructor 500 1500 in
  scrollRatio s = 0 /\ translateY (updateThumb s) = 0
  /\ height (updateThumb s) = 500 * (500 / 1500).
Proof.
  intros s.
  destruct (thumb_at_top s eq_refl) as (Hr & Ht).
  exact (conj Hr (conj (eq_trans Ht eq_refl) eq_refl)).
Defined.
